(** * NodeBB [src/posts.js]: vote-index maintenance and rank queries

    A shallow embedding of the functions of [src/posts.js]
    ([getPidsFromSet], [getPostsByPids], [getPidIndex], [getPostIndices],
    [updatePostVoteCount], [modifyPostByPrivilege]) together with the part
    of JavaScript's value semantics those functions rely on (truthiness,
    [ToString], [parseInt(_, 10)], [isNaN], [_ > 0], property access in
    strict mode).

    Numbers are modelled exactly: the integers, NaN and the two
    infinities, integers printing in plain decimal notation.  Rounding of
    IEEE doubles (and with it the exponent notation of very large numbers),
    number values that are not integers and white space outside ASCII are
    outside the model; strings are arbitrary.  Objects are plain records of
    data: no accessors, no prototypes, no frozen objects. *)

From stdpp Require Import gmap strings list fin_maps pretty.
From Stdlib Require Import Ascii String ZArith Lia.

Set Warnings "-register-all".
Open Scope string_scope.
Open Scope Z_scope.

(** ** JavaScript values *)

Module JS.

Inductive number :=
| NInt (z : Z)
| NNaN
| NInf (negative : bool).

(** Arrays carry their elements and, like every JavaScript object, a bag
    of named properties. *)
Inductive jsval :=
| JUndefined
| JNull
| JBool (b : bool)
| JNum (n : number)
| JStr (s : string)
| JArr (items : list jsval) (props : gmap string jsval)
| JObj (props : gmap string jsval).

Definition jint (z : Z) : jsval := JNum (NInt z).
Definition jarr (l : list jsval) : jsval := JArr l ∅.

(** [ToBoolean]: the falsy values are undefined, null, false, 0, NaN and
    the empty string. *)
Definition truthy (v : jsval) : bool :=
  match v with
  | JUndefined | JNull => false
  | JBool b => b
  | JNum (NInt z) => negb (z =? 0)
  | JNum NNaN => false
  | JNum (NInf _) => true
  | JStr s => negb (String.eqb s "")
  | JArr _ _ | JObj _ => true
  end.

(** [a || b] on values. *)
Definition js_or (a b : jsval) : jsval := if truthy a then a else b.

Definition number_to_string (n : number) : string :=
  match n with
  | NInt z => pretty z
  | NNaN => "NaN"
  | NInf false => "Infinity"
  | NInf true => "-Infinity"
  end.

Fixpoint join (sep : string) (l : list string) : string :=
  match l with
  | [] => ""
  | [s] => s
  | s :: rest => s +:+ sep +:+ join sep rest
  end.

(** [ToString]; an array prints as its elements joined by commas, with
    undefined and null elements printed as the empty string, and a plain
    object prints as "[object Object]". *)
Fixpoint ToString (v : jsval) : string :=
  match v with
  | JUndefined => "undefined"
  | JNull => "null"
  | JBool true => "true"
  | JBool false => "false"
  | JNum n => number_to_string n
  | JStr s => s
  | JArr items _ =>
      join "," (List.map (fun x => match x with
                                   | JUndefined | JNull => ""
                                   | _ => ToString x
                                   end) items)
  | JObj _ => "[object Object]"
  end.

(** ['prefix' + v] with a string on the left. *)
Definition concat (prefix : string) (v : jsval) : string := prefix +:+ ToString v.

(** *** Scanning strings *)

Definition is_ws (c : ascii) : bool :=
  let n := nat_of_ascii c in
  ((9 <=? n) && (n <=? 13))%nat || (n =? 32)%nat.

Definition is_digit (c : ascii) : bool :=
  let n := nat_of_ascii c in ((48 <=? n) && (n <=? 57))%nat.

Definition digit_val (c : ascii) : Z := Z.of_nat (nat_of_ascii c) - 48.

Definition is_hex_digit (c : ascii) : bool :=
  let n := nat_of_ascii c in
  is_digit c || ((65 <=? n) && (n <=? 70))%nat || ((97 <=? n) && (n <=? 102))%nat.

Definition is_oct_digit (c : ascii) : bool :=
  let n := nat_of_ascii c in ((48 <=? n) && (n <=? 55))%nat.

Definition is_bin_digit (c : ascii) : bool :=
  let n := nat_of_ascii c in ((48 <=? n) && (n <=? 49))%nat.

Fixpoint trim_start (s : string) : string :=
  match s with
  | String c rest => if is_ws c then trim_start rest else s
  | EmptyString => EmptyString
  end.

Fixpoint all_ws (s : string) : bool :=
  match s with
  | String c rest => is_ws c && all_ws rest
  | EmptyString => true
  end.

Definition starts_with (p : ascii -> bool) (s : string) : bool :=
  match s with
  | String c _ => p c
  | EmptyString => false
  end.

(** Value of the longest prefix of decimal digits, continuing from [acc]. *)
Fixpoint digits_value (s : string) (acc : Z) : Z :=
  match s with
  | String c rest =>
      if is_digit c then digits_value rest (10 * acc + digit_val c) else acc
  | EmptyString => acc
  end.

(** Drops the longest prefix of characters satisfying [p]; the boolean
    tells whether one of the dropped characters was not "0". *)
Fixpoint skip (p : ascii -> bool) (s : string) (nz : bool) : bool * string :=
  match s with
  | String c rest =>
      if p c then skip p rest (nz || negb (Ascii.eqb c "0")) else (nz, s)
  | EmptyString => (nz, s)
  end.

Definition strip_sign (s : string) : bool * string :=
  match s with
  | String "-" rest => (true, rest)
  | String "+" rest => (false, rest)
  | _ => (false, s)
  end.

(** *** [parseInt(v, 10)]

    The argument is converted to a string, leading white space and one
    sign are dropped, and the longest prefix of decimal digits is read; no
    digit gives NaN. *)
Definition parseInt_string (s : string) : number :=
  let '(neg, body) := strip_sign (trim_start s) in
  if starts_with is_digit body
  then NInt (if neg then - digits_value body 0 else digits_value body 0)
  else NNaN.

Definition parseInt (v : jsval) : number := parseInt_string (ToString v).

(** *** [ToNumber], as far as its sign *)

Inductive sign := SNaN | SNeg | SZero | SPos.

Definition signed (neg nz : bool) : sign :=
  if nz then (if neg then SNeg else SPos) else SZero.

(** An optional exponent part, then only white space. *)
Definition exponent_then_ws (s : string) : bool :=
  match s with
  | String c rest =>
      if Ascii.eqb c "e" || Ascii.eqb c "E"
      then let body := snd (strip_sign rest) in
           starts_with is_digit body && all_ws (snd (skip is_digit body false))
      else all_ws s
  | EmptyString => true
  end.

Definition prefixed_literal (p : ascii -> bool) (digits : string) : sign :=
  let '(nz, rest) := skip p digits false in
  if starts_with p digits && all_ws rest then signed false nz else SNaN.

Definition drop_Infinity (s : string) : option string :=
  match s with
  | String "I" (String "n" (String "f" (String "i" (String "n"
      (String "i" (String "t" (String "y" rest))))))) => Some rest
  | _ => None
  end.

(** The sign of [StringToNumber s]: the string is a [StringNumericLiteral]
    (white space around nothing, around a signed decimal literal or
    "Infinity", or around an unsigned 0x/0o/0b literal), else NaN. *)
Definition string_sign (s : string) : sign :=
  let t := trim_start s in
  match t with
  | EmptyString => SZero
  | String "0" (String "x" d) | String "0" (String "X" d) => prefixed_literal is_hex_digit d
  | String "0" (String "o" d) | String "0" (String "O" d) => prefixed_literal is_oct_digit d
  | String "0" (String "b" d) | String "0" (String "B" d) => prefixed_literal is_bin_digit d
  | _ =>
      let '(neg, u) := strip_sign t in
      match drop_Infinity u with
      | Some rest => if all_ws rest then signed neg true else SNaN
      | None =>
          if starts_with is_digit u then
            let '(nz1, r1) := skip is_digit u false in
            match r1 with
            | String "." r2 =>
                let '(nz2, r3) := skip is_digit r2 nz1 in
                if exponent_then_ws r3 then signed neg nz2 else SNaN
            | _ => if exponent_then_ws r1 then signed neg nz1 else SNaN
            end
          else
            match u with
            | String "." r2 =>
                let '(nz2, r3) := skip is_digit r2 false in
                if starts_with is_digit r2 && exponent_then_ws r3
                then signed neg nz2 else SNaN
            | _ => SNaN
            end
      end
  end.

Definition number_sign (n : number) : sign :=
  match n with
  | NInt z => if z =? 0 then SZero else if z <? 0 then SNeg else SPos
  | NNaN => SNaN
  | NInf neg => if neg then SNeg else SPos
  end.

(** The sign of [ToNumber v]; arrays and objects go through their string
    form. *)
Definition ToNumber_sign (v : jsval) : sign :=
  match v with
  | JUndefined => SNaN
  | JNull => SZero
  | JBool b => if b then SPos else SZero
  | JNum n => number_sign n
  | JStr s => string_sign s
  | JArr _ _ | JObj _ => string_sign (ToString v)
  end.

(** The global [isNaN(v)]. *)
Definition isNaN (v : jsval) : bool :=
  match ToNumber_sign v with SNaN => true | _ => false end.

(** [v > 0]. *)
Definition gt_zero (v : jsval) : bool :=
  match ToNumber_sign v with SPos => true | _ => false end.

(** [v <= 0]. *)
Definition le_zero (v : jsval) : bool :=
  match ToNumber_sign v with SNeg | SZero => true | _ => false end.

(** [a === b] on numbers: NaN equals nothing. *)
Definition number_strict_eq (a b : number) : bool :=
  match a, b with
  | NInt x, NInt y => x =? y
  | NInf x, NInf y => Bool.eqb x y
  | _, _ => false
  end.

(** [a - b] on numbers. *)
Definition number_sub (a b : number) : number :=
  match a, b with
  | NNaN, _ | _, NNaN => NNaN
  | NInt x, NInt y => NInt (x - y)
  | NInf s, NInt _ => NInf s
  | NInt _, NInf s => NInf (negb s)
  | NInf s, NInf t => if Bool.eqb s t then NNaN else NInf s
  end.

(** [n + 1] on numbers. *)
Definition number_succ (n : number) : number :=
  match n with
  | NInt z => NInt (z + 1)
  | other => other
  end.

Definition is_array (v : jsval) : bool :=
  match v with JArr _ _ => true | _ => false end.

End JS.

Import JS.

(** ** Results of calls, and stateful computations *)

(** A call ends with a value ([callback(null, a)] or a plain return), with
    an error handed to the callback, or with an exception. *)
Inductive outcome (A : Type) : Type :=
| Ok (a : A)
| Failed (err : jsval)
| Thrown (msg : string).
Arguments Ok {A} a.
Arguments Failed {A} err.
Arguments Thrown {A} msg.

Definition obind {A B : Type} (o : outcome A) (k : A -> outcome B) : outcome B :=
  match o with
  | Ok a => k a
  | Failed e => Failed e
  | Thrown t => Thrown t
  end.

(** Computations over a mutable state [S]: the backend for the asynchronous
    functions, the post object for [modifyPostByPrivilege]. *)
Definition M (S A : Type) : Type := S -> outcome A * S.

Definition ret {S A : Type} (a : A) : M S A := fun s => (Ok a, s).

Definition lift {S A : Type} (o : outcome A) : M S A := fun s => (o, s).

Definition bind {S A B : Type} (m : M S A) (k : A -> M S B) : M S B :=
  fun s =>
    match m s with
    | (Ok a, s') => k a s'
    | (Failed e, s') => (Failed e, s')
    | (Thrown t, s') => (Thrown t, s')
    end.

Notation "'let*' x ':=' m 'in' k" := (bind m (fun x => k))
  (at level 10, x name, m at level 100, k at level 200).
Notation "m ';;' k" := (bind m (fun _ => k))
  (at level 100, k at level 200, right associativity).

(** [Array.prototype.map] with a function that may throw. *)
Fixpoint mapM {S A B : Type} (f : A -> M S B) (l : list A) : M S (list B) :=
  match l with
  | [] => ret []
  | a :: rest =>
      let* b := f a in
      let* bs := mapM f rest in
      ret (b :: bs)
  end.

(** The result of two tasks: an exception if there is one, else the first
    error, else both values. *)
Definition first_error {A B C : Type} (f : A -> B -> C)
    (a : outcome A) (b : outcome B) : outcome C :=
  match a, b with
  | Thrown t, _ => Thrown t
  | _, Thrown t => Thrown t
  | Failed e, _ => Failed e
  | _, Failed e => Failed e
  | Ok x, Ok y => Ok (f x y)
  end.

(** The combinators of the [async] library start every task, in the order
    of the list, also after one of them has failed, and hand the first
    error to the final callback; an exception ends the run.  Tasks are
    modelled as running to completion one after the other. *)
Definition both {S A B C : Type} (f : A -> B -> C) (m : M S A) (k : M S B) : M S C :=
  fun s =>
    match m s with
    | (Thrown t, s') => (Thrown t, s')
    | (a, s') => let '(b, s'') := k s' in (first_error f a b, s'')
    end.

(** [async.map]. *)
Fixpoint async_map {S A B : Type} (f : A -> M S B) (l : list A) : M S (list B) :=
  match l with
  | [] => ret []
  | a :: rest => both cons (f a) (async_map f rest)
  end.

(** [async.parallel], for tasks without a result. *)
Fixpoint parallel {S : Type} (tasks : list (M S unit)) : M S unit :=
  match tasks with
  | [] => ret tt
  | task :: rest => both (fun _ _ => tt) task (parallel rest)
  end.

(** ** Property access (strict mode) *)

(** [v.f] for a value that is neither undefined nor null; the property
    names of the source are identifiers, never array indices. *)
Definition prop (v : jsval) (f : string) : jsval :=
  match v with
  | JObj o => default JUndefined (o !! f)
  | JArr items o =>
      if String.eqb f "length" then jint (Z.of_nat (List.length items))
      else default JUndefined (o !! f)
  | JStr s =>
      if String.eqb f "length" then jint (Z.of_nat (String.length s))
      else JUndefined
  | _ => JUndefined
  end.

(** [v.f]: reading a property of undefined or null throws. *)
Definition get_prop (v : jsval) (f : string) : outcome jsval :=
  match v with
  | JUndefined | JNull => Thrown "TypeError"
  | _ => Ok (prop v f)
  end.

(** [v.f = x]: under 'use strict' a property can only be written on an
    object; the updated object is returned. *)
Definition set_prop (v : jsval) (f : string) (x : jsval) : outcome jsval :=
  match v with
  | JObj o => Ok (JObj (<[f := x]> o))
  | JArr items o => Ok (JArr items (<[f := x]> o))
  | _ => Thrown "TypeError"
  end.

(** [v === 'literal']. *)
Definition is_string (v : jsval) (s : string) : bool :=
  match v with
  | JStr t => String.eqb t s
  | _ => false
  end.

(** [Array.isArray(v) && v.length] as the list of elements of a non-empty
    array. *)
Definition nonempty_array (v : jsval) : option (list jsval) :=
  match v with
  | JArr (x :: rest) _ => Some (x :: rest)
  | _ => None
  end.

(** ** The storage backend and the other collaborators *)

Module Db.

(** Calls made to the backend and to the collaborators, oldest first. *)
Inductive call :=
| SortedSetAdd (key : string) (score value : jsval)
| SortedSetRemove (key : string) (value : jsval)
| SortedSetRank (key : string) (value : jsval)
| SortedSetRanks (key : string) (values : list jsval)
| SortedSetsRanks (keys : list string) (values : list jsval)
| GetSortedSetRange (key : string) (start stop : jsval)
| GetSortedSetRevRange (key : string) (start stop : jsval)
| GetObjects (keys : list string)
| GetTopicFields (tid : jsval) (fields : list string)
| SetTopicFields (tid : jsval) (data : gmap string jsval)
| SetPostFields (pid : jsval) (data : gmap string jsval)
| GetSettings (uid : jsval)
| ParsePost (post : jsval)
| BlocksFilter (uid posts : jsval)
| FireHook (hook : string) (payload : jsval).

(** Modelled from the spec: the Ordered Index Store and the object store of
    [./database], which is not part of the sources.  Section 2 of the spec
    describes named ordered sets mapping member to score; members are
    identified by their string form, scores are kept as they were passed.
    Objects are field maps stored under a key. *)
Record world := World {
  zsets : gmap string (gmap string jsval);
  objects : gmap string (gmap string jsval);
  calls : list call
}.

Definition zset (w : world) (key : string) : gmap string jsval :=
  default ∅ (zsets w !! key).

(** The score of [member] in the ordered set [key], if it is a member. *)
Definition score (w : world) (key : string) (member : jsval) : option jsval :=
  zset w key !! ToString member.

Definition object (w : world) (key : string) : gmap string jsval :=
  default ∅ (objects w !! key).

Definition logged (c : call) (w : world) : world :=
  World (zsets w) (objects w) (calls w ++ [c]).

Definition zadd (key member : string) (sc : jsval) (w : world) : world :=
  World (<[key := <[member := sc]> (zset w key)]> (zsets w)) (objects w) (calls w).

Definition zrem (key member : string) (w : world) : world :=
  World (<[key := delete member (zset w key)]> (zsets w)) (objects w) (calls w).

Definition setObject (key : string) (data : gmap string jsval) (w : world) : world :=
  World (zsets w) (<[key := data ∪ object w key]> (objects w)) (calls w).

(** Modelled from the spec: [db.sortedSetAdd], the Ordered Index Store's
    add-or-update(set, score, member). *)
Definition sortedSetAdd (key : string) (sc value : jsval) : M world unit :=
  fun w => (Ok tt, zadd key (ToString value) sc (logged (SortedSetAdd key sc value) w)).

(** Modelled from the spec: [db.sortedSetRemove], the Ordered Index Store's
    remove(set, member). *)
Definition sortedSetRemove (key : string) (value : jsval) : M world unit :=
  fun w => (Ok tt, zrem key (ToString value) (logged (SortedSetRemove key value) w)).

(** Modelled from the spec: [topics.getTopicFields], the Topic
    collaborator's getFields(tid, fieldNames); a field that is not stored
    reads as null. *)
Definition getTopicFields (tid : jsval) (fields : list string) : M world jsval :=
  fun w =>
    let o := object w (concat "topic:" tid) in
    (Ok (JObj (list_to_map (List.map (fun f => (f, default JNull (o !! f))) fields))),
     logged (GetTopicFields tid fields) w).

(** Modelled from the spec: [topics.setTopicFields], the Topic
    collaborator's setFields(tid, fieldMap). *)
Definition setTopicFields (tid : jsval) (data : gmap string jsval) : M world unit :=
  fun w =>
    (Ok tt, setObject (concat "topic:" tid) data (logged (SetTopicFields tid data) w)).

(** Modelled from the spec: [Posts.setPostFields] of [./posts/data], the
    Post Accessor's setFields(id, fieldMap). *)
Definition setPostFields (pid : jsval) (data : gmap string jsval) : M world unit :=
  fun w =>
    (Ok tt, setObject (concat "post:" pid) data (logged (SetPostFields pid data) w)).

(** Modelled from the spec: [db.getObjects], the Post Accessor's
    getObjectsByKeys(keys): same order and length as the keys, null for a
    key without a record. *)
Definition getObjects (keys : list string) : M world (list jsval) :=
  fun w =>
    (Ok (List.map (fun k => match objects w !! k with
                            | Some o => JObj o
                            | None => JNull
                            end) keys),
     logged (GetObjects keys) w).

(** What the source leaves to its collaborators: the order of the backend
    on scores, its range operation, and the functions of [./utils],
    [./posts/parse], [./user] and [./plugins]. *)
Class Collaborators := {
  score_lt : jsval -> jsval -> bool;
  range : bool -> gmap string jsval -> jsval -> jsval -> list jsval;
  toISOString : jsval -> jsval;
  parsePost : jsval -> outcome jsval;
  blocks_filter : jsval -> jsval -> outcome jsval;
  fireHook : string -> jsval -> outcome jsval;
  getSettings : jsval -> outcome jsval
}.

Section Reads.
Context {C : Collaborators}.

(** An entry sorts before another one by score, members breaking ties. *)
Definition before (a b : string * jsval) : bool :=
  score_lt (snd a) (snd b)
  || (negb (score_lt (snd b) (snd a)) && String.ltb (fst a) (fst b)).

(** The 0-based rank of a member: the number of entries sorting before
    it. *)
Definition rank_in (zs : gmap string jsval) (member : string) : option nat :=
  match zs !! member with
  | Some sc => Some (List.length (List.filter (fun e => before e (member, sc)) (map_to_list zs)))
  | None => None
  end.

Definition rank_value (w : world) (key : string) (value : jsval) : jsval :=
  match rank_in (zset w key) (ToString value) with
  | Some r => jint (Z.of_nat r)
  | None => JNull
  end.

(** Modelled from the spec: [db.sortedSetRank], the Ordered Index Store's
    rank(set, member): the 0-based rank, null for a value that is not a
    member. *)
Definition sortedSetRank (key : string) (value : jsval) : M world jsval :=
  fun w => (Ok (rank_value w key value), logged (SortedSetRank key value) w).

(** Modelled from the spec: [db.sortedSetRanks], the batched rank lookup of
    several members in one set. *)
Definition sortedSetRanks (key : string) (values : list jsval) : M world (list jsval) :=
  fun w => (Ok (List.map (rank_value w key) values), logged (SortedSetRanks key values) w).

(** Modelled from the spec: [db.sortedSetsRanks], the batched rank lookup
    with one set per member. *)
Definition sortedSetsRanks (keys : list string) (values : list jsval) : M world (list jsval) :=
  fun w =>
    (Ok (List.map (fun kv => rank_value w (fst kv) (snd kv)) (List.combine keys values)),
     logged (SortedSetsRanks keys values) w).

(** Modelled from the spec: [db.getSortedSetRange] and
    [db.getSortedSetRevRange], the Ordered Index Store's
    range(set, start, stop, reverse). *)
Definition getSortedSetRange (key : string) (start stop : jsval) : M world jsval :=
  fun w => (Ok (jarr (range false (zset w key) start stop)),
            logged (GetSortedSetRange key start stop) w).

Definition getSortedSetRevRange (key : string) (start stop : jsval) : M world jsval :=
  fun w => (Ok (jarr (range true (zset w key) start stop)),
            logged (GetSortedSetRevRange key start stop) w).

Definition call_getSettings (uid : jsval) : M world jsval :=
  fun w => (getSettings uid, logged (GetSettings uid) w).

Definition call_parsePost (post : jsval) : M world jsval :=
  fun w => (parsePost post, logged (ParsePost post) w).

Definition call_blocks_filter (uid posts : jsval) : M world jsval :=
  fun w => (blocks_filter uid posts, logged (BlocksFilter uid posts) w).

Definition call_fireHook (hook : string) (payload : jsval) : M world jsval :=
  fun w => (fireHook hook payload, logged (FireHook hook payload) w).

End Reads.

End Db.

Import Db.

(** ** [src/posts.js] *)

Module Posts.

Definition is_Infinity_literal (s : string) : bool :=
  match drop_Infinity (snd (strip_sign (trim_start s))) with
  | Some _ => true
  | None => false
  end.

(** Modelled from the spec: [utils.isNumber] of [./utils], which is not
    part of the sources.  The spec calls what it accepts "a valid number"
    and what it rejects "not found" or "malformed": accepted are the finite
    numbers and the strings that hold a finite numeric literal; null,
    undefined, NaN and the infinities are rejected. *)
Definition isNumber (v : jsval) : bool :=
  match v with
  | JNum (NInt _) => true
  | JStr s =>
      negb (all_ws s) && negb (isNaN v) && negb (is_Infinity_literal s)
  | _ => false
  end.

(** [utils.isNumber(index) ? parseInt(index, 10) + 1 : 0], the step shared
    by [getPidIndex] and [getPostIndices]. *)
Definition position_of_rank (index : jsval) : jsval :=
  if isNumber index then JNum (number_succ (parseInt index)) else jint 0.

(** [parseInt(x, 10) || 0]. *)
Definition parseInt_or_0 (x : jsval) : number :=
  let n := parseInt x in if truthy (JNum n) then n else NInt 0.

(** [_.uniq] on strings: the first occurrence of each string, in order. *)
Fixpoint uniq_from (seen l : list string) : list string :=
  match l with
  | [] => []
  | s :: rest =>
      if List.existsb (String.eqb s) seen then uniq_from seen rest
      else s :: uniq_from (s :: seen) rest
  end.

Definition uniq (l : list string) : list string := uniq_from [] l.

(** The ordered sets of the source, by key. *)
Definition user_votes_key (uid : jsval) : string := concat "uid:" uid +:+ ":posts:votes".
Definition topic_posts_votes_key (tid : jsval) : string := concat "tid:" tid +:+ ":posts:votes".
Definition topic_posts_key (tid : jsval) : string := concat "tid:" tid +:+ ":posts".
Definition category_votes_key (cid : jsval) : string := concat "cid:" cid +:+ ":tids:votes".
Definition topics_votes_key : string := "topics:votes".
Definition posts_votes_key : string := "posts:votes".

Definition placeholder : string := "[[topic:post_is_deleted]]".

Section Source.
Context {C : Collaborators}.

(** [Posts.getPidsFromSet], lines 36-41. *)
Definition getPidsFromSet (set : string) (start stop reverse : jsval) : M world jsval :=
  if isNaN start || isNaN stop then ret (jarr [])
  else if truthy reverse then getSortedSetRevRange set start stop
  else getSortedSetRange set start stop.

(** The iteratee of [async.map] in [Posts.getPostsByPids], lines 56-66.
    The record is updated in place; [votes] is computed from the two
    counters just stored. *)
Definition decorate (post : jsval) : outcome jsval :=
  let upvotes := parseInt_or_0 (prop post "upvotes") in
  obind (set_prop post "upvotes" (JNum upvotes)) (fun post =>
  let downvotes := parseInt_or_0 (prop post "downvotes") in
  obind (set_prop post "downvotes" (JNum downvotes)) (fun post =>
  obind (set_prop post "votes" (JNum (number_sub upvotes downvotes))) (fun post =>
  obind (set_prop post "timestampISO" (toISOString (prop post "timestamp"))) (fun post =>
  set_prop post "editedISO"
    (if negb (number_strict_eq (parseInt (prop post "edited")) (NInt 0))
     then toISOString (prop post "edited") else JStr ""))))).

Definition decorate_and_parse (post : jsval) : M world jsval :=
  if negb (truthy post) then ret JUndefined
  else
    let* post := lift (decorate post) in
    call_parsePost post.

(** The last step of the waterfall in [Posts.getPostsByPids], lines
    72-78. *)
Definition filter_hook_result (data : jsval) : jsval :=
  if negb (truthy data) then jarr []
  else
    match prop data "posts" with
    | JArr items _ => jarr (List.filter truthy items)
    | _ => jarr []
    end.

(** [Posts.getPostsByPids], lines 43-80. *)
Definition getPostsByPids (pids uid : jsval) : M world jsval :=
  match nonempty_array pids with
  | None => ret (jarr [])
  | Some pids =>
      let keys := List.map (concat "post:") pids in
      let* posts := getObjects keys in
      let* posts := async_map decorate_and_parse posts in
      let* posts := call_blocks_filter uid (jarr posts) in
      let* data := call_fireHook "filter:post.getPosts"
                     (JObj (<["posts" := posts]> (<["uid" := uid]> ∅))) in
      ret (filter_hook_result data)
  end.

(** [Posts.getPidIndex], lines 99-112. *)
Definition getPidIndex (pid tid topicPostSort : jsval) : M world jsval :=
  let set := if is_string topicPostSort "most_votes"
             then topic_posts_votes_key tid else topic_posts_key tid in
  let* index := sortedSetRank set pid in
  if negb (isNumber index) then ret (jint 0)
  else ret (JNum (number_succ (parseInt index))).

(** [Posts.getPostIndices], lines 114-150. *)
Definition getPostIndices (posts uid : jsval) : M world jsval :=
  match nonempty_array posts with
  | None => ret (jarr [])
  | Some posts =>
      let* settings := call_getSettings uid in
      let* topicPostSort := lift (get_prop settings "topicPostSort") in
      let byVotes := is_string topicPostSort "most_votes" in
      let* sets := mapM (fun post =>
                     let* tid := lift (get_prop post "tid") in
                     ret (if byVotes then topic_posts_votes_key tid
                          else topic_posts_key tid)) posts in
      let uniqueSets := uniq sets in
      let* pids := mapM (fun post => lift (get_prop post "pid")) posts in
      let* indices :=
        match uniqueSets with
        | [set] => sortedSetRanks set pids
        | _ => sortedSetsRanks sets pids
        end in
      ret (jarr (List.map position_of_rank indices))
  end.

(** [Posts.updatePostVoteCount], lines 152-209. *)
Definition updatePostVoteCount (postData : jsval) : M world unit :=
  if negb (truthy postData) || negb (truthy (prop postData "pid"))
     || negb (truthy (prop postData "tid"))
  then ret tt
  else
    let pid := prop postData "pid" in
    let tid := prop postData "tid" in
    let uid := prop postData "uid" in
    let votes := prop postData "votes" in
    let counters : gmap string jsval :=
      <["upvotes" := prop postData "upvotes"]>
        (<["downvotes" := prop postData "downvotes"]> ∅) in
    parallel [
      (if truthy uid then
         if gt_zero votes then sortedSetAdd (user_votes_key uid) votes pid
         else sortedSetRemove (user_votes_key uid) pid
       else ret tt);
      (let* topicData := getTopicFields tid ["mainPid"; "cid"] in
       if number_strict_eq (parseInt (prop topicData "mainPid")) (parseInt pid)
       then
         parallel [
           setTopicFields tid counters;
           sortedSetAdd topics_votes_key votes tid;
           sortedSetAdd (category_votes_key (prop topicData "cid")) votes tid ]
       else sortedSetAdd (topic_posts_votes_key tid) votes pid);
      sortedSetAdd posts_votes_key votes pid;
      setPostFields pid counters ].

(** [post.f] and [post.f = x] on the post that is being modified. *)
Definition read_field (f : string) : M jsval jsval :=
  fun post => (get_prop post f, post).

Definition write_field (f : string) (x : jsval) : M jsval unit :=
  fun post =>
    match set_prop post f x with
    | Ok post' => (Ok tt, post')
    | Failed e => (Failed e, post)
    | Thrown t => (Thrown t, post)
    end.

(** [Posts.modifyPostByPrivilege], lines 211-218.  The state is the post
    object, which the function updates in place; the object that
    [post.user] refers to is updated in place too, which shows in the post
    as a new value of its [user] property. *)
Definition modifyPostByPrivilege (privileges : jsval) : M jsval unit :=
  let* deleted := read_field "deleted" in
  let* hidden :=
    if truthy deleted then
      let* selfPost := read_field "selfPost" in
      if truthy selfPost then ret false
      else
        let* view_deleted := lift (get_prop privileges "posts:view_deleted") in
        ret (negb (truthy view_deleted))
    else ret false in
  if hidden then
    write_field "content" (JStr placeholder) ;;
    let* user := read_field "user" in
    if truthy user then
      let* user := lift (set_prop user "signature" (JStr "")) in
      write_field "user" user
    else ret tt
  else ret tt.

End Source.

End Posts.

Import Posts.

(** ** Vocabulary of the properties *)

(** The stored value of a field of a topic, null when it is not stored. *)
Definition topic_field (w : world) (tid : jsval) (f : string) : jsval :=
  default JNull (object w (concat "topic:" tid) !! f).

(** The post object passes the guard of [updatePostVoteCount]: it is
    present, and so are its [pid] and [tid]. *)
Definition accepted (postData : jsval) : bool :=
  truthy postData && truthy (prop postData "pid") && truthy (prop postData "tid").

(** [parseInt(topic.mainPid, 10) === parseInt(post.pid, 10)]. *)
Definition is_main_post (w : world) (postData : jsval) : bool :=
  number_strict_eq (parseInt (topic_field w (prop postData "tid") "mainPid"))
                   (parseInt (prop postData "pid")).

Definition counters (postData : jsval) : gmap string jsval :=
  <["upvotes" := prop postData "upvotes"]>
    (<["downvotes" := prop postData "downvotes"]> ∅).

(** The effect of the first task of [updatePostVoteCount] and the calls it
    makes. *)
Definition user_index_update (postData : jsval) (w : world) : world :=
  let uid := prop postData "uid" in
  let pid := prop postData "pid" in
  let votes := prop postData "votes" in
  if truthy uid then
    if gt_zero votes
    then zadd (user_votes_key uid) (ToString pid) votes
           (logged (SortedSetAdd (user_votes_key uid) votes pid) w)
    else zrem (user_votes_key uid) (ToString pid)
           (logged (SortedSetRemove (user_votes_key uid) pid) w)
  else w.

Definition user_calls (postData : jsval) : list call :=
  let uid := prop postData "uid" in
  let pid := prop postData "pid" in
  let votes := prop postData "votes" in
  if truthy uid then
    if gt_zero votes then [SortedSetAdd (user_votes_key uid) votes pid]
    else [SortedSetRemove (user_votes_key uid) pid]
  else [].

(** The calls made between two states of the backend. *)
Definition new_calls (w w' : world) : list call :=
  drop (List.length (calls w)) (calls w').

Definition absent (v : jsval) : Prop := v = JUndefined \/ v = JNull.

Definition missing_or_zero (v : jsval) : Prop :=
  v = JUndefined \/ v = JNull \/ v = jint 0.

(** The integer that [parseInt(v, 10) || 0] yields. *)
Definition coerced (v : jsval) : Z :=
  match parseInt v with
  | NInt z => z
  | _ => 0
  end.

(** A valid integer index: an integer, or a string that is one in decimal
    notation. *)
Definition integer_index (v : jsval) : bool :=
  match v with
  | JNum (NInt _) => true
  | JStr s =>
      let body := snd (strip_sign s) in
      starts_with is_digit body && String.eqb (snd (skip is_digit body false)) ""
  | _ => false
  end.

(** A hook answer without the list of posts. *)
Definition malformed (data : jsval) : Prop :=
  truthy data = false \/ is_array (prop data "posts") = false.

(** The condition under which [modifyPostByPrivilege] hides a post. *)
Definition hidden (post privileges : jsval) : bool :=
  truthy (prop post "deleted")
  && negb (truthy (prop post "selfPost")
           || truthy (prop privileges "posts:view_deleted")).

Definition is_ParsePost (c : call) : Prop :=
  match c with ParsePost _ => True | _ => False end.

(** The 1-based position of a value in an ordered set, 0 for a value that
    is not a member. *)
Definition position {C : Collaborators} (w : world) (key : string) (value : jsval) : Z :=
  match rank_in (zset w key) (ToString value) with
  | Some r => Z.of_nat r + 1
  | None => 0
  end.

(** *** A sample forum

    Collaborators that pass everything through, over a backend that orders
    integer scores and answers a range query with the whole set; a second
    set whose hook answers null.  Topic 1 of category 1 was opened by post 1
    and has a second post 2, both by user 7; post 3 by user 8 stood at two
    votes. *)
Definition sample : Collaborators := {|
  score_lt a b :=
    match a, b with
    | JNum (NInt x), JNum (NInt y) => x <? y
    | _, _ => false
    end;
  range _ zs _ _ := List.map (fun e => JStr (fst e)) (map_to_list zs);
  toISOString _ := JStr "";
  parsePost post := Ok post;
  blocks_filter _ posts := Ok posts;
  fireHook _ payload := Ok payload;
  getSettings _ := Ok (JObj (<["topicPostSort" := JStr "most_votes"]> ∅))
|}.

Definition sample_null_hook : Collaborators := {|
  score_lt := @score_lt sample;
  range := @range sample;
  toISOString := @toISOString sample;
  parsePost := @parsePost sample;
  blocks_filter := @blocks_filter sample;
  fireHook _ _ := Ok JNull;
  getSettings := @getSettings sample
|}.

Definition post_record (pid tid uid upvotes downvotes : Z) : jsval :=
  JObj (<["pid" := jint pid]> (<["tid" := jint tid]> (<["uid" := jint uid]>
       (<["upvotes" := jint upvotes]> (<["downvotes" := jint downvotes]>
       (<["votes" := jint (upvotes - downvotes)]> ∅)))))).

Definition P1 : jsval := post_record 1 1 7 4 1.
Definition P2 : jsval := post_record 2 1 7 6 1.
Definition P3 : jsval := post_record 3 1 8 1 2.

Definition forum : world :=
  World (<["uid:8:posts:votes" := <["3" := jint 2]> ∅]>
           (<["tid:1:posts:votes" := <["2" := jint 5]> (<["3" := jint 2]> ∅)]> ∅))
        (<["topic:1" := <["mainPid" := JStr "1"]> (<["cid" := jint 1]> ∅)]>
           (<["post:1" := <["upvotes" := JStr "4"]> (<["downvotes" := JStr "1"]> ∅)]> ∅))
        [].

Definition deleted_post : gmap string jsval :=
  <["deleted" := JBool true]>
    (<["content" := JStr "hello"]>
       (<["user" := JObj (<["signature" := JStr "sig"]> (<["username" := JStr "ann"]> ∅))]> ∅)).

(** ** [src/posts.js], the remaining functions *)

(** [v + 1]: with a string, an array or an object on the left the number
    is appended to the string form, otherwise it is added. *)
Definition plus_one (v : jsval) : jsval :=
  match v with
  | JNum n => JNum (number_succ n)
  | JUndefined => JNum NNaN
  | JNull => jint 1
  | JBool b => jint (if b then 2 else 1)
  | JStr _ | JArr _ _ | JObj _ => JStr (ToString v +:+ "1")
  end.

(** Modelled from the spec: [db.isSortedSetMember], the Ordered Index
    Store's isMember(set, member).  The lookup leaves no entry in the call
    log. *)
Definition isSortedSetMember (key : string) (value : jsval) : M world jsval :=
  fun w => (Ok (JBool (bool_decide (is_Some (score w key value)))), w).

(** [Posts.exists], lines 32-34. *)
Definition exists_ (pid : jsval) : M world jsval :=
  isSortedSetMember "posts:pid" pid.

(** The collaborators of [Posts.getPostSummariesFromSet]:
    [privileges.posts.filter] of [./privileges] and
    [Posts.getPostSummaryByPids] of [./posts/summary].  Their calls leave
    no entry in the call log. *)
Class Readers := {
  privileges_filter : string -> jsval -> jsval -> outcome jsval;
  getPostSummaryByPids : jsval -> jsval -> jsval -> outcome jsval
}.

(** [Posts.getPostSummariesFromSet], lines 82-97. *)
Definition getPostSummariesFromSet {C : Collaborators} {R : Readers}
    (set : string) (uid start stop : jsval) : M world jsval :=
  let* pids := getSortedSetRevRange set start stop in
  let* pids := lift (privileges_filter "read" pids uid) in
  let* posts := lift (getPostSummaryByPids pids uid
                        (JObj (<["stripTags" := JBool false]> ∅))) in
  ret (JObj (<["posts" := posts]> (<["nextStart" := plus_one stop]> ∅))).


Definition nullish (v : jsval) : bool :=
  match v with JUndefined | JNull => true | _ => false end.

(** Readers that let every post through and summarise nothing. *)
Definition sample_readers : Readers := {|
  privileges_filter _ pids _ := Ok pids;
  getPostSummaryByPids pids _ _ := Ok pids
|}.

(** What the backend returns for a key of [db.getObjects], what [async.map]
    makes of it, and the decorated record of a pid, if it is stored. *)
Definition stored (w : world) (k : string) : jsval :=
  match objects w !! k with
  | Some o => JObj o
  | None => JNull
  end.

Definition decorated_value {C : Collaborators} (obj : jsval) : jsval :=
  match obj with
  | JObj _ => match decorate obj with Ok post => post | _ => JUndefined end
  | _ => JUndefined
  end.

Definition decorated {C : Collaborators} (w : world) (pid : jsval) : option jsval :=
  match objects w !! concat "post:" pid with
  | Some o => match decorate (JObj o) with Ok post => Some post | _ => None end
  | None => None
  end.

(** The sign of a signed decimal literal: the last case of [string_sign]. *)
Definition decimal_sign (t : string) : sign :=
  let '(neg, u) := strip_sign t in
  match drop_Infinity u with
  | Some rest => if all_ws rest then signed neg true else SNaN
  | None =>
      if starts_with is_digit u then
        let '(nz1, r1) := skip is_digit u false in
        match r1 with
        | String "." r2 =>
            let '(nz2, r3) := skip is_digit r2 nz1 in
            if exponent_then_ws r3 then signed neg nz2 else SNaN
        | _ => if exponent_then_ws r1 then signed neg nz1 else SNaN
        end
      else
        match u with
        | String "." r2 =>
            let '(nz2, r3) := skip is_digit r2 false in
            if starts_with is_digit r2 && exponent_then_ws r3
            then signed neg nz2 else SNaN
        | _ => SNaN
        end
  end.

(** The letters of the prefixes 0x, 0o and 0b. *)
Definition radix_letter (c : ascii) : bool :=
  match c with
  | "x" | "X" | "o" | "O" | "b" | "B" => true
  | _ => false
  end%char.

(** More of the sample forum: a post without an author, a post of a topic
    that is not stored, a post of a second topic, and the post of the
    viewer. *)
Definition anonymous_post : jsval := post_record 4 1 0 2 0.
Definition orphan_post : jsval := post_record 5 9 7 1 0.
Definition own_deleted_post : gmap string jsval :=
  <["selfPost" := JBool true]> deleted_post.

(** The payload that the hook receives for post 1 in the sample forum. *)
Definition hook_payload : jsval :=
  Eval vm_compute in
    match last (calls (snd (getPostsByPids (C := sample_null_hook)
                              (jarr [jint 1]) (jint 7) forum))) with
    | Some (FireHook _ payload) => payload
    | _ => JNull
    end.

(** ** Numbers print and parse back *)

Lemma pretty_N_char_digit (d : N) :
  (d < 10)%N ->
  is_digit (pretty_N_char d) = true /\ digit_val (pretty_N_char d) = Z.of_N d.
Proof.
  intros Hd.
  assert (Hcases : (d = 0 \/ d = 1 \/ d = 2 \/ d = 3 \/ d = 4 \/ d = 5 \/ d = 6
                    \/ d = 7 \/ d = 8 \/ d = 9)%N) by lia.
  repeat (destruct Hcases as [-> | Hcases]; [split; reflexivity |]).
  subst d. split; reflexivity.
Qed.

Lemma digits_value_pretty_go (x : N) :
  exists k : Z, 0 <= k /\ forall s acc,
    digits_value (pretty_N_go x s) acc = digits_value s (acc * 10 ^ k + Z.of_N x).
Proof.
  induction (N.lt_wf_0 x) as [x _ IH].
  destruct (decide (x = 0%N)) as [-> | Hx].
  - exists 0. split; [lia |]. intros s acc. rewrite pretty_N_go_0. f_equal. lia.
  - assert (Hlt : (x `div` 10 < x)%N) by (apply N.div_lt; lia).
    destruct (IH _ Hlt) as (k & Hk & Hgo).
    exists (k + 1). split; [lia |]. intros s acc.
    rewrite pretty_N_go_step by lia. rewrite Hgo. simpl.
    destruct (pretty_N_char_digit (x `mod` 10)) as [-> ->].
    { apply N.mod_lt. lia. }
    f_equal. rewrite Z.pow_add_r by lia.
    pose proof (N.div_mod x 10 ltac:(lia)) as Hdm.
    assert (Z.of_N x = 10 * Z.of_N (x `div` 10) + Z.of_N (x `mod` 10)) by lia.
    lia.
Qed.

Lemma pretty_go_starts_with_digit (x : N) (s : string) :
  (0 < x)%N -> starts_with is_digit (pretty_N_go x s) = true.
Proof.
  revert s. induction (N.lt_wf_0 x) as [x _ IH]. intros s Hx.
  rewrite pretty_N_go_step by done.
  destruct (decide (x `div` 10 = 0)%N) as [-> | Hq].
  - rewrite pretty_N_go_0. simpl.
    apply pretty_N_char_digit, N.mod_lt. lia.
  - assert (0 < x `div` 10)%N by (destruct (x `div` 10)%N; [done | lia]).
    apply IH; [apply N.div_lt; lia | done].
Qed.

Lemma digit_not_ws (c : ascii) : is_digit c = true -> is_ws c = false.
Proof.
  unfold is_digit, is_ws. intros Hd.
  apply andb_true_iff in Hd as [H1 H2].
  apply Nat.leb_le in H1. apply Nat.leb_le in H2.
  apply orb_false_iff. split.
  - apply andb_false_iff. right. apply Nat.leb_gt. lia.
  - apply Nat.eqb_neq. lia.
Qed.

Lemma parseInt_string_digits (s : string) :
  starts_with is_digit s = true -> parseInt_string s = NInt (digits_value s 0).
Proof.
  destruct s as [| c rest]; [discriminate |]. simpl. intros Hd.
  unfold parseInt_string. simpl. rewrite (digit_not_ws _ Hd).
  assert (Hsign : strip_sign (String c rest) = (false, String c rest)).
  { unfold strip_sign.
    destruct c as [[] [] [] [] [] [] [] []]; try reflexivity; discriminate. }
  rewrite Hsign. simpl. by rewrite Hd.
Qed.

Lemma parseInt_string_minus (r : string) :
  starts_with is_digit r = true ->
  parseInt_string (String "-" r) = NInt (- digits_value r 0).
Proof.
  intros Hd. unfold parseInt_string.
  change (trim_start (String "-" r)) with (String "-" r).
  change (strip_sign (String "-" r)) with (true, r).
  cbv beta iota. by rewrite Hd.
Qed.

Lemma parseInt_pretty_N (x : N) : parseInt_string (pretty x) = NInt (Z.of_N x).
Proof.
  unfold pretty, pretty_N. case_decide as Hx.
  - subst x. reflexivity.
  - rewrite parseInt_string_digits by (apply pretty_go_starts_with_digit; lia).
    destruct (digits_value_pretty_go x) as (k & _ & Hgo).
    rewrite Hgo. simpl. f_equal.
Qed.

(** [parseInt(n, 10)] of an integer number is that integer. *)
Lemma parseInt_jint (z : Z) : parseInt (jint z) = NInt z.
Proof.
  unfold parseInt, jint. simpl.
  destruct z as [| p | p]; unfold pretty, pretty_Z.
  - reflexivity.
  - apply (parseInt_pretty_N (N.pos p)).
  - pose proof (parseInt_pretty_N (N.pos p)) as Hp.
    pose proof (pretty_go_starts_with_digit (N.pos p) "" ltac:(lia)) as Hd.
    assert (Hpretty : pretty (N.pos p) = pretty_N_go (N.pos p) "").
    { unfold pretty, pretty_N. by case_decide. }
    rewrite Hpretty in Hp.
    rewrite parseInt_string_digits in Hp by done.
    change (pretty p) with (pretty (N.pos p)). rewrite Hpretty.
    change ("-" +:+ pretty_N_go (N.pos p) "") with (String "-" (pretty_N_go (N.pos p) "")).
    rewrite parseInt_string_minus by done.
    injection Hp as ->. reflexivity.
Qed.

(** [parseInt] yields an integer or NaN, so [parseInt(v, 10) || 0] is an
    integer. *)
Lemma parseInt_or_0_coerced (v : jsval) : parseInt_or_0 v = NInt (coerced v).
Proof.
  unfold parseInt_or_0, coerced, parseInt, parseInt_string.
  destruct (strip_sign _) as [neg body].
  destruct (starts_with _ _); [| reflexivity].
  cbn [truthy]. destruct (_ =? 0) eqn:Hz; [| reflexivity].
  apply Z.eqb_eq in Hz. cbn [negb]. by rewrite Hz.
Qed.

Lemma le_zero_not_gt (v : jsval) : le_zero v = true -> gt_zero v = false.
Proof. unfold le_zero, gt_zero. by destruct (ToNumber_sign v). Qed.

(** ** The backend under writes *)

Lemma zset_zadd key member sc w key' :
  zset (zadd key member sc w) key'
  = if decide (key = key') then <[member := sc]> (zset w key) else zset w key'.
Proof.
  unfold zset at 1, zadd. cbn [zsets].
  case_decide as Hk.
  - subst. by rewrite lookup_insert_eq.
  - by rewrite lookup_insert_ne.
Qed.

Lemma zset_zrem key member w key' :
  zset (zrem key member w) key'
  = if decide (key = key') then delete member (zset w key) else zset w key'.
Proof.
  unfold zset at 1, zrem. cbn [zsets].
  case_decide as Hk.
  - subst. by rewrite lookup_insert_eq.
  - by rewrite lookup_insert_ne.
Qed.

Lemma zset_logged c w key : zset (logged c w) key = zset w key.
Proof. reflexivity. Qed.

Lemma zset_setObject k data w key : zset (setObject k data w) key = zset w key.
Proof. reflexivity. Qed.

Lemma object_zadd key member sc w k : object (zadd key member sc w) k = object w k.
Proof. reflexivity. Qed.

Lemma object_zrem key member w k : object (zrem key member w) k = object w k.
Proof. reflexivity. Qed.

Lemma object_logged c w k : object (logged c w) k = object w k.
Proof. reflexivity. Qed.

Lemma object_setObject k data w k' :
  object (setObject k data w) k'
  = if decide (k = k') then data ∪ object w k else object w k'.
Proof.
  unfold object at 1, setObject. cbn [objects].
  case_decide as Hk.
  - subst. by rewrite lookup_insert_eq.
  - by rewrite lookup_insert_ne.
Qed.

Lemma calls_zadd key member sc w : calls (zadd key member sc w) = calls w.
Proof. reflexivity. Qed.

Lemma calls_zrem key member w : calls (zrem key member w) = calls w.
Proof. reflexivity. Qed.

Lemma calls_setObject k data w : calls (setObject k data w) = calls w.
Proof. reflexivity. Qed.

Lemma calls_logged c w : calls (logged c w) = (calls w ++ [c])%list.
Proof. reflexivity. Qed.

Lemma new_calls_app w w' l :
  calls w' = (calls w ++ l)%list -> new_calls w w' = l.
Proof. unfold new_calls. intros ->. by rewrite drop_app_length. Qed.

(** Keys of different families are different strings. *)
Ltac key_ne :=
  unfold user_votes_key, topic_posts_votes_key, topic_posts_key,
    category_votes_key, topics_votes_key, posts_votes_key, concat;
  cbv [String.append]; congruence.

Ltac decide_keys :=
  repeat match goal with
  | |- context [decide (?a = ?b)] =>
      first [ rewrite (decide_True (P := a = b)) by reflexivity
            | rewrite (decide_False (P := a = b)) by key_ne ]
  end.

Lemma object_user_index_update postData w k :
  object (user_index_update postData w) k = object w k.
Proof.
  unfold user_index_update.
  destruct (truthy _); [destruct (gt_zero _) |]; reflexivity.
Qed.

Lemma zset_user_index_update postData w key :
  key <> user_votes_key (prop postData "uid") ->
  zset (user_index_update postData w) key = zset w key.
Proof.
  intros Hne. unfold user_index_update.
  destruct (truthy _); [destruct (gt_zero _) |]; [| | done].
  - rewrite zset_zadd, decide_False by done. reflexivity.
  - rewrite zset_zrem, decide_False by done. reflexivity.
Qed.

Lemma calls_user_index_update postData w :
  calls (user_index_update postData w) = (calls w ++ user_calls postData)%list.
Proof.
  unfold user_index_update, user_calls.
  destruct (truthy _); [destruct (gt_zero _) |];
    rewrite ?calls_zadd, ?calls_zrem, ?calls_logged, ?app_nil_r; reflexivity.
Qed.

Lemma score_user_index_update postData w :
  truthy (prop postData "uid") = true ->
  score (user_index_update postData w) (user_votes_key (prop postData "uid"))
        (prop postData "pid")
  = if gt_zero (prop postData "votes") then Some (prop postData "votes") else None.
Proof.
  intros Huid. unfold score, user_index_update. rewrite Huid.
  destruct (gt_zero _).
  - rewrite zset_zadd, decide_True by done. by rewrite lookup_insert_eq.
  - rewrite zset_zrem, decide_True by done. by rewrite lookup_delete_eq.
Qed.

Ltac world_simpl :=
  repeat first
    [ rewrite zset_setObject | rewrite zset_logged | rewrite zset_zadd
    | rewrite zset_zrem | rewrite object_zadd | rewrite object_zrem
    | rewrite object_logged | rewrite object_setObject
    | rewrite calls_zadd | rewrite calls_zrem | rewrite calls_setObject
    | rewrite calls_logged | rewrite object_user_index_update
    | rewrite calls_user_index_update ];
  decide_keys.

(** ** Runs of [updatePostVoteCount] *)

Lemma topicData_field tid w f :
  f = "mainPid" \/ f = "cid" ->
  prop (JObj (list_to_map
          (List.map (fun f => (f, default JNull (object w (concat "topic:" tid) !! f)))
                    ["mainPid"; "cid"]))) f
  = topic_field w tid f.
Proof.
  intros [-> | ->]; unfold prop, topic_field; cbn [List.map list_to_map foldr].
  - by rewrite lookup_insert_eq.
  - rewrite lookup_insert_ne by done. by rewrite lookup_insert_eq.
Qed.

Lemma topic_field_user_index_update postData w tid f :
  topic_field (user_index_update postData w) tid f = topic_field w tid f.
Proof. unfold topic_field. by rewrite object_user_index_update. Qed.

Lemma accepted_guard postData :
  accepted postData = true ->
  negb (truthy postData) || negb (truthy (prop postData "pid"))
    || negb (truthy (prop postData "tid")) = false.
Proof.
  unfold accepted. intros Hacc.
  apply andb_true_iff in Hacc as [Hacc ->].
  apply andb_true_iff in Hacc as [-> ->]. reflexivity.
Qed.

Lemma user_task_run postData w :
  (if truthy (prop postData "uid") then
     if gt_zero (prop postData "votes")
     then sortedSetAdd (user_votes_key (prop postData "uid"))
            (prop postData "votes") (prop postData "pid")
     else sortedSetRemove (user_votes_key (prop postData "uid")) (prop postData "pid")
   else ret tt) w
  = (Ok tt, user_index_update postData w).
Proof.
  unfold user_index_update.
  destruct (truthy _); [destruct (gt_zero _) |]; reflexivity.
Qed.

(** The run on the main post of a topic. *)
Lemma update_main postData w :
  accepted postData = true ->
  is_main_post w postData = true ->
  let pid := prop postData "pid" in
  let tid := prop postData "tid" in
  let votes := prop postData "votes" in
  let cid := topic_field w tid "cid" in
  updatePostVoteCount postData w
  = (Ok tt,
     setObject (concat "post:" pid) (counters postData)
       (logged (SetPostFields pid (counters postData))
     (zadd posts_votes_key (ToString pid) votes
       (logged (SortedSetAdd posts_votes_key votes pid)
     (zadd (category_votes_key cid) (ToString tid) votes
       (logged (SortedSetAdd (category_votes_key cid) votes tid)
     (zadd topics_votes_key (ToString tid) votes
       (logged (SortedSetAdd topics_votes_key votes tid)
     (setObject (concat "topic:" tid) (counters postData)
       (logged (SetTopicFields tid (counters postData))
     (logged (GetTopicFields tid ["mainPid"; "cid"])
     (user_index_update postData w)))))))))))).
Proof.
  intros Hacc Hmain. cbv zeta.
  unfold updatePostVoteCount. rewrite (accepted_guard _ Hacc).
  cbn [parallel]. unfold both at 1. rewrite user_task_run.
  unfold both, bind, getTopicFields, ret. cbn [fst snd].
  rewrite !topicData_field by auto.
  rewrite !topic_field_user_index_update.
  unfold is_main_post in Hmain. rewrite Hmain.
  reflexivity.
Qed.

(** The run on any other post. *)
Lemma update_other postData w :
  accepted postData = true ->
  is_main_post w postData = false ->
  let pid := prop postData "pid" in
  let tid := prop postData "tid" in
  let votes := prop postData "votes" in
  updatePostVoteCount postData w
  = (Ok tt,
     setObject (concat "post:" pid) (counters postData)
       (logged (SetPostFields pid (counters postData))
     (zadd posts_votes_key (ToString pid) votes
       (logged (SortedSetAdd posts_votes_key votes pid)
     (zadd (topic_posts_votes_key tid) (ToString pid) votes
       (logged (SortedSetAdd (topic_posts_votes_key tid) votes pid)
     (logged (GetTopicFields tid ["mainPid"; "cid"])
     (user_index_update postData w)))))))).
Proof.
  intros Hacc Hmain. cbv zeta.
  unfold updatePostVoteCount. rewrite (accepted_guard _ Hacc).
  cbn [parallel]. unfold both at 1. rewrite user_task_run.
  unfold both, bind, getTopicFields, ret. cbn [fst snd].
  rewrite !topicData_field by auto.
  rewrite !topic_field_user_index_update.
  unfold is_main_post in Hmain. rewrite Hmain.
  reflexivity.
Qed.

Lemma score_user_after_update postData w :
  accepted postData = true ->
  score (snd (updatePostVoteCount postData w))
        (user_votes_key (prop postData "uid")) (prop postData "pid")
  = score (user_index_update postData w)
        (user_votes_key (prop postData "uid")) (prop postData "pid").
Proof.
  intros Hacc. unfold score.
  destruct (is_main_post w postData) eqn:Hmain.
  - rewrite (update_main _ _ Hacc Hmain). cbn [snd]. world_simpl. reflexivity.
  - rewrite (update_other _ _ Hacc Hmain). cbn [snd]. world_simpl. reflexivity.
Qed.

Lemma rejected_is_noop postData w :
  accepted postData = false -> updatePostVoteCount postData w = (Ok tt, w).
Proof.
  unfold accepted, updatePostVoteCount. intros Hrej.
  destruct (truthy postData); [| reflexivity].
  destruct (truthy (prop postData "pid")); [| reflexivity].
  destruct (truthy (prop postData "tid")); [discriminate | reflexivity].
Qed.

(** ** [updatePostVoteCount]: where the votes of a post go *)

(** C1.  For a post that is the main post of its topic
    ([parseInt(topic.mainPid, 10) === parseInt(post.pid, 10)]),
    [updatePostVoteCount] stores the post's upvotes and downvotes in the
    topic, makes [votes] the score of the topic in the global topic-vote
    index and in the topic-vote index of the topic's category, makes
    [votes] the score of the post in the global post-vote index, and does
    not write to the per-topic post-vote index: that index is unchanged and
    no call addresses it. *)
Theorem main_post_votes_go_to_topic postData w :
  accepted postData = true ->
  is_main_post w postData = true ->
  let pid := prop postData "pid" in
  let tid := prop postData "tid" in
  let votes := prop postData "votes" in
  let cid := topic_field w tid "cid" in
  let w' := snd (updatePostVoteCount postData w) in
  fst (updatePostVoteCount postData w) = Ok tt
  /\ object w' (concat "topic:" tid) !! "upvotes" = Some (prop postData "upvotes")
  /\ object w' (concat "topic:" tid) !! "downvotes" = Some (prop postData "downvotes")
  /\ score w' topics_votes_key tid = Some votes
  /\ score w' (category_votes_key cid) tid = Some votes
  /\ score w' posts_votes_key pid = Some votes
  /\ zset w' (topic_posts_votes_key tid) = zset w (topic_posts_votes_key tid)
  /\ new_calls w w'
     = (user_calls postData ++
        [GetTopicFields tid ["mainPid"; "cid"];
         SetTopicFields tid (counters postData);
         SortedSetAdd topics_votes_key votes tid;
         SortedSetAdd (category_votes_key cid) votes tid;
         SortedSetAdd posts_votes_key votes pid;
         SetPostFields pid (counters postData)])%list.
Proof.
  intros Hacc Hmain. cbv zeta.
  rewrite (update_main _ _ Hacc Hmain). cbn [fst snd].
  unfold score.
  repeat split.
  - world_simpl. unfold counters.
    apply lookup_union_Some_l. by rewrite lookup_insert_eq.
  - world_simpl. unfold counters.
    apply lookup_union_Some_l.
    rewrite lookup_insert_ne by done. by rewrite lookup_insert_eq.
  - world_simpl. by rewrite lookup_insert_eq.
  - world_simpl. by rewrite lookup_insert_eq.
  - world_simpl. by rewrite lookup_insert_eq.
  - world_simpl. apply zset_user_index_update. key_ne.
  - apply new_calls_app. world_simpl. by rewrite <- !app_assoc.
Qed.

Lemma main_post_votes_go_to_topic_witness :
  accepted P1 = true
  /\ is_main_post forum P1 = true
  /\ object (snd (updatePostVoteCount P1 forum)) "topic:1" !! "upvotes" = Some (jint 4)
  /\ score (snd (updatePostVoteCount P1 forum)) "topics:votes" (jint 1) = Some (jint 3)
  /\ score (snd (updatePostVoteCount P1 forum)) "cid:1:tids:votes" (jint 1) = Some (jint 3)
  /\ score (snd (updatePostVoteCount P1 forum)) "posts:votes" (jint 1) = Some (jint 3)
  /\ zset (snd (updatePostVoteCount P1 forum)) "tid:1:posts:votes"
     = zset forum "tid:1:posts:votes".
Proof.
  assert (Hacc : accepted P1 = true) by (vm_compute; reflexivity).
  assert (Hmain : is_main_post forum P1 = true) by (vm_compute; reflexivity).
  destruct (main_post_votes_go_to_topic P1 forum Hacc Hmain)
    as (_ & Hup & _ & Htopics & Hcategory & Hposts & Hframe & _).
  exact (conj Hacc (conj Hmain (conj Hup (conj Htopics
          (conj Hcategory (conj Hposts Hframe)))))).
Defined.

(** C2.  For a post that is not the main post of its topic,
    [updatePostVoteCount] makes [votes] the score of the post in the
    per-topic post-vote index and in the global post-vote index, and leaves
    the global topic-vote index, every category topic-vote index and every
    stored topic unchanged. *)
Theorem other_post_votes_go_to_topic_posts postData w :
  accepted postData = true ->
  is_main_post w postData = false ->
  let pid := prop postData "pid" in
  let tid := prop postData "tid" in
  let votes := prop postData "votes" in
  let w' := snd (updatePostVoteCount postData w) in
  fst (updatePostVoteCount postData w) = Ok tt
  /\ score w' (topic_posts_votes_key tid) pid = Some votes
  /\ score w' posts_votes_key pid = Some votes
  /\ zset w' topics_votes_key = zset w topics_votes_key
  /\ (forall cid, zset w' (category_votes_key cid) = zset w (category_votes_key cid))
  /\ (forall t, object w' (concat "topic:" t) = object w (concat "topic:" t))
  /\ new_calls w w'
     = (user_calls postData ++
        [GetTopicFields tid ["mainPid"; "cid"];
         SortedSetAdd (topic_posts_votes_key tid) votes pid;
         SortedSetAdd posts_votes_key votes pid;
         SetPostFields pid (counters postData)])%list.
Proof.
  intros Hacc Hmain. cbv zeta.
  rewrite (update_other _ _ Hacc Hmain). cbn [fst snd].
  unfold score.
  repeat split.
  - world_simpl. by rewrite lookup_insert_eq.
  - world_simpl. by rewrite lookup_insert_eq.
  - world_simpl. apply zset_user_index_update. key_ne.
  - intros cid. world_simpl. apply zset_user_index_update. key_ne.
  - intros t. world_simpl. reflexivity.
  - apply new_calls_app. world_simpl. by rewrite <- !app_assoc.
Qed.

Lemma other_post_votes_go_to_topic_posts_witness :
  accepted P2 = true
  /\ is_main_post forum P2 = false
  /\ score (snd (updatePostVoteCount P2 forum)) "tid:1:posts:votes" (jint 2) = Some (jint 5)
  /\ score (snd (updatePostVoteCount P2 forum)) "posts:votes" (jint 2) = Some (jint 5)
  /\ zset (snd (updatePostVoteCount P2 forum)) "topics:votes" = zset forum "topics:votes"
  /\ zset (snd (updatePostVoteCount P2 forum)) "cid:1:tids:votes"
     = zset forum "cid:1:tids:votes"
  /\ object (snd (updatePostVoteCount P2 forum)) "topic:1" = object forum "topic:1".
Proof.
  assert (Hacc : accepted P2 = true) by (vm_compute; reflexivity).
  assert (Hmain : is_main_post forum P2 = false) by (vm_compute; reflexivity).
  destruct (other_post_votes_go_to_topic_posts P2 forum Hacc Hmain)
    as (_ & Htopic & Hposts & Htopics & Hcategory & Hobject & _).
  exact (conj Hacc (conj Hmain (conj Htopic (conj Hposts (conj Htopics
          (conj (Hcategory (jint 1)) (Hobject (jint 1)))))))).
Defined.

(** C3.  After [updatePostVoteCount] on a post whose [uid] is set, the
    post's score in the per-user post-vote index of its author is [votes]
    when [votes > 0], and the post is not a member of that index when
    [votes <= 0], whatever its score was before. *)
Theorem user_index_holds_positive_votes_only postData w :
  accepted postData = true ->
  truthy (prop postData "uid") = true ->
  let pid := prop postData "pid" in
  let uid := prop postData "uid" in
  let votes := prop postData "votes" in
  let w' := snd (updatePostVoteCount postData w) in
  (gt_zero votes = true -> score w' (user_votes_key uid) pid = Some votes)
  /\ (le_zero votes = true -> score w' (user_votes_key uid) pid = None).
Proof.
  intros Hacc Huid. cbv zeta.
  rewrite (score_user_after_update _ _ Hacc), (score_user_index_update _ _ Huid).
  split.
  - by intros ->.
  - intros Hle. by rewrite (le_zero_not_gt _ Hle).
Qed.

Lemma user_index_holds_positive_votes_only_witness :
  accepted P3 = true
  /\ truthy (prop P3 "uid") = true
  /\ le_zero (prop P3 "votes") = true
  /\ score forum "uid:8:posts:votes" (jint 3) = Some (jint 2)
  /\ score (snd (updatePostVoteCount P3 forum)) "uid:8:posts:votes" (jint 3) = None.
Proof.
  assert (Hacc : accepted P3 = true) by (vm_compute; reflexivity).
  assert (Huid : truthy (prop P3 "uid") = true) by (vm_compute; reflexivity).
  assert (Hle : le_zero (prop P3 "votes") = true) by (vm_compute; reflexivity).
  assert (Hbefore : score forum "uid:8:posts:votes" (jint 3) = Some (jint 2))
    by (vm_compute; reflexivity).
  exact (conj Hacc (conj Huid (conj Hle (conj Hbefore
          (proj2 (user_index_holds_positive_votes_only P3 forum Hacc Huid) Hle))))).
Defined.

(** C6.  When the post object is absent, or its [pid] or [tid] is missing
    or zero, [updatePostVoteCount] ends without an error and without a
    call: no index, no topic and no post is written. *)
Theorem incomplete_post_is_ignored postData w :
  absent postData \/ missing_or_zero (prop postData "pid")
    \/ missing_or_zero (prop postData "tid") ->
  updatePostVoteCount postData w = (Ok tt, w).
Proof.
  intros Hbad. apply rejected_is_noop. unfold accepted.
  destruct Hbad as [[-> | ->] | [Hpid | Htid]]; try reflexivity.
  - destruct Hpid as [-> | [-> | ->]]; by rewrite andb_false_r.
  - destruct Htid as [-> | [-> | ->]]; by rewrite andb_false_r.
Qed.

Lemma incomplete_post_is_ignored_witness :
  missing_or_zero (prop (post_record 0 1 7 4 1) "pid")
  /\ updatePostVoteCount (post_record 0 1 7 4 1) forum = (Ok tt, forum).
Proof.
  assert (Hzero : missing_or_zero (prop (post_record 0 1 7 4 1) "pid")).
  { right. right. vm_compute. reflexivity. }
  split; [exact Hzero |].
  apply incomplete_post_is_ignored. right. left. exact Hzero.
Defined.

(** ** [getPidIndex] and [getPostIndices]: positions *)

Lemma mapM_pure {S A B : Type} (f : A -> M S B) (g : A -> B) (l : list A) (s : S) :
  Forall (fun a => forall s', f a s' = (Ok (g a), s')) l ->
  mapM f l s = (Ok (List.map g l), s).
Proof.
  induction 1 as [| a l Ha _ IH]; [reflexivity |].
  cbn [mapM List.map]. unfold bind. rewrite Ha, IH. reflexivity.
Qed.

Lemma uniq_from_seen (k : string) (seen : list string) (n : nat) :
  List.existsb (String.eqb k) seen = true -> uniq_from seen (replicate n k) = [].
Proof. intros Hseen. induction n as [| n IH]; cbn; [done |]. by rewrite Hseen. Qed.

(** [_.uniq] of a list that repeats one string is that string alone. *)
Lemma uniq_replicate (k : string) (n : nat) : uniq (replicate (S n) k) = [k].
Proof.
  unfold uniq. cbn. f_equal. apply uniq_from_seen.
  cbn. by rewrite String.eqb_refl.
Qed.

Lemma map_const_replicate {A B : Type} (b : B) (l : list A) :
  List.map (fun _ => b) l = replicate (List.length l) b.
Proof. induction l; cbn; congruence. Qed.

Lemma get_prop_Ok v f x g : get_prop v f = Ok x -> get_prop v g = Ok (prop v g).
Proof. destruct v; cbn; congruence. Qed.

Section Rank.
Context {C : Collaborators}.

Lemma rank_in_member zs member :
  is_Some (rank_in zs member) <-> is_Some (zs !! member).
Proof.
  unfold rank_in. destruct (zs !! member); split; intros [? ?]; eauto; discriminate.
Qed.

(** The rank that the backend reports, null included, becomes the
    position. *)
Lemma position_of_rank_value w key value :
  position_of_rank (rank_value w key value) = jint (position w key value).
Proof.
  unfold position_of_rank, rank_value, position.
  destruct (rank_in _ _) as [r |]; [| reflexivity].
  cbn [isNumber jint]. rewrite parseInt_jint. reflexivity.
Qed.


Lemma position_member w key value :
  1 <= position w key value <-> is_Some (score w key value).
Proof.
  unfold position, score. rewrite <- rank_in_member.
  destruct (rank_in _ _) as [r |]; split; intros Hp; eauto; try lia.
  by destruct Hp.
Qed.


(** C5.  For a non-empty list of posts of one topic and a viewer who sorts
    by "most_votes", [getPostIndices] reads the settings and then makes one
    call, the batched rank lookup in the per-topic vote index of that
    topic, and returns the positions of the posts in the order of the
    input: rank plus 1, or 0 where the backend reports no rank.  For an
    empty list it returns the empty list without a call. *)
Theorem getPostIndices_one_topic :
  (forall props uid w, getPostIndices (JArr [] props) uid w = (Ok (jarr []), w))
  /\ (forall post rest props uid settings tid w,
        getSettings uid = Ok settings ->
        get_prop settings "topicPostSort" = Ok (JStr "most_votes") ->
        Forall (fun p => get_prop p "tid" = Ok tid) (post :: rest) ->
        let posts := post :: rest in
        let key := topic_posts_votes_key tid in
        let pids := List.map (fun p => prop p "pid") posts in
        getPostIndices (JArr posts props) uid w
        = (Ok (jarr (List.map (fun pid => jint (position w key pid)) pids)),
           logged (SortedSetRanks key pids) (logged (GetSettings uid) w))).
Proof.
  split; [reflexivity |].
  intros post rest props uid settings tid w Hsettings Hsort Htid. cbv zeta.
  unfold getPostIndices. cbn [nonempty_array].
  unfold bind at 1. unfold call_getSettings. rewrite Hsettings.
  unfold bind at 1. unfold lift at 1. rewrite Hsort. cbn [is_string].
  change (String.eqb "most_votes" "most_votes") with true. cbv iota.
  unfold bind at 1.
  rewrite (mapM_pure _ (fun _ => topic_posts_votes_key tid)).
  2:{ eapply Forall_impl; [exact Htid |]. intros p Hp s'. cbv beta.
      unfold bind, lift. rewrite Hp. reflexivity. }
  unfold bind at 1.
  rewrite (mapM_pure _ (fun p => prop p "pid")).
  2:{ eapply Forall_impl; [exact Htid |]. intros p Hp s'. cbv beta.
      unfold lift. by rewrite (get_prop_Ok _ _ _ "pid" Hp). }
  rewrite map_const_replicate. cbn [List.length].
  rewrite uniq_replicate.
  unfold bind, sortedSetRanks, ret. cbn [fst snd].
  rewrite List.map_map. do 3 f_equal.
  apply List.map_ext. intros p.
  exact (position_of_rank_value w (topic_posts_votes_key tid) p).
Qed.

End Rank.


Lemma getPostIndices_one_topic_witness :
  getSettings (Collaborators := sample) (jint 7)
  = Ok (JObj (<["topicPostSort" := JStr "most_votes"]> ∅))
  /\ Forall (fun p => get_prop p "tid" = Ok (jint 1)) [P2; P1; P3]
  /\ getPostIndices (C := sample) (jarr [P2; P1; P3]) (jint 7) forum
     = (Ok (jarr [jint 2; jint 0; jint 1]),
        logged (SortedSetRanks "tid:1:posts:votes" [jint 2; jint 1; jint 3])
          (logged (GetSettings (jint 7)) forum)).
Proof.
  assert (Hsettings : getSettings (Collaborators := sample) (jint 7)
                      = Ok (JObj (<["topicPostSort" := JStr "most_votes"]> ∅)))
    by reflexivity.
  assert (Hsort : get_prop (JObj (<["topicPostSort" := JStr "most_votes"]> ∅)) "topicPostSort"
                  = Ok (JStr "most_votes")) by (vm_compute; reflexivity).
  assert (Htid : Forall (fun p => get_prop p "tid" = Ok (jint 1)) [P2; P1; P3])
    by (repeat constructor; vm_compute; reflexivity).
  exact (conj Hsettings (conj Htid
          (proj2 (getPostIndices_one_topic (C := sample))
             P2 [P1; P3] ∅ (jint 7) _ (jint 1) forum Hsettings Hsort Htid))).
Defined.

(** ** [getPidsFromSet] and [getPostsByPids] *)

Lemma filter_hook_result_truthy data :
  exists items, filter_hook_result data = jarr items
                /\ Forall (fun x => truthy x = true) items.
Proof.
  unfold filter_hook_result.
  destruct (truthy data); cbn [negb]; [| by exists []].
  destruct (prop data "posts") as [| | | | | items props |]; try by exists [].
  exists (List.filter truthy items). split; [reflexivity |].
  apply List.Forall_forall. intros x Hx. by apply List.filter_In in Hx as [_ Hx].
Qed.

Lemma filter_hook_result_malformed data :
  malformed data -> filter_hook_result data = jarr [].
Proof.
  unfold malformed, filter_hook_result. intros [-> | Harr]; [reflexivity |].
  destruct (truthy data); cbn [negb]; [| reflexivity].
  by destruct (prop data "posts").
Qed.

Lemma FireHook_not_ParsePost hook payload cs :
  Forall is_ParsePost cs -> FireHook hook payload ∉ cs.
Proof.
  intros Hall Hin. rewrite Forall_forall in Hall. exact (Hall _ Hin).
Qed.

Section Pipeline.
Context {C : Collaborators}.

Lemma decorate_and_parse_calls post w :
  exists cs, calls (snd (decorate_and_parse post w)) = (calls w ++ cs)%list
             /\ Forall is_ParsePost cs.
Proof.
  unfold decorate_and_parse.
  destruct (truthy post); cbn [negb].
  - unfold bind, lift. destruct (decorate post) as [post' | e | t]; cbn [snd].
    + exists [ParsePost post']. split; [reflexivity |]. by repeat constructor.
    + exists []. by rewrite app_nil_r.
    + exists []. by rewrite app_nil_r.
  - exists []. cbn. by rewrite app_nil_r.
Qed.

(** Decorating the records calls nothing but the parser. *)
Lemma async_map_decorate_calls posts w :
  exists cs, calls (snd (async_map decorate_and_parse posts w)) = (calls w ++ cs)%list
             /\ Forall is_ParsePost cs.
Proof.
  revert w. induction posts as [| post posts IH]; intros w.
  - exists []. cbn. by rewrite app_nil_r.
  - cbn [async_map]. unfold both.
    destruct (decorate_and_parse_calls post w) as (cs1 & Hcs1 & Hall1).
    destruct (decorate_and_parse post w) as [[post' | e | t] w1]; cbn [snd] in *;
      try (exists cs1; by split);
      destruct (IH w1) as (cs2 & Hcs2 & Hall2);
      destruct (async_map decorate_and_parse posts w1) as [rest w2]; cbn [snd] in *;
      exists (cs1 ++ cs2)%list; rewrite Hcs2, Hcs1, <- app_assoc;
      (split; [reflexivity | by apply Forall_app]).
Qed.

(** C7, amended.  For a record that is present, the decoration step never
    throws; it replaces [upvotes] and [downvotes] by the integers that
    [parseInt(_, 10)] reads from them, a negative one included, and by 0
    when the field is missing or does not start with an integer, and it
    sets [votes] to the difference of the two. *)
Theorem decorate_counters (o : gmap string jsval) :
  let post := JObj o in
  let up := coerced (prop post "upvotes") in
  let down := coerced (prop post "downvotes") in
  exists o',
    decorate post = Ok (JObj o')
    /\ prop (JObj o') "upvotes" = jint up
    /\ prop (JObj o') "downvotes" = jint down
    /\ prop (JObj o') "votes" = jint (up - down)
    /\ (parseInt (prop post "upvotes") = NNaN -> up = 0)
    /\ (parseInt (prop post "downvotes") = NNaN -> down = 0).
Proof.
  cbv zeta. unfold decorate. cbn [set_prop obind].
  eexists. split; [reflexivity |].
  cbn [prop]. rewrite !parseInt_or_0_coerced. cbn [number_sub].
  rewrite (lookup_insert_ne _ "upvotes" "downvotes") by done.
  repeat split.
  - do 4 (rewrite lookup_insert_ne by done). by rewrite lookup_insert_eq.
  - do 3 (rewrite lookup_insert_ne by done). by rewrite lookup_insert_eq.
  - do 2 (rewrite lookup_insert_ne by done). by rewrite lookup_insert_eq.
  - unfold coerced. by intros ->.
  - unfold coerced. by intros ->.
Qed.

(** C8, amended.  [getPidsFromSet] returns the empty list, without a call
    to the backend and without an error, whenever [isNaN(start)] or
    [isNaN(stop)] holds, that is whenever one of them converts to NaN (NaN,
    undefined, the string "abc"); every other pair of values, so also one
    that converts to a number that is not an integer index ("1.5"), is
    passed on as it is to the range operation of the backend, in one call,
    the reverse one when [reverse] is truthy, and the answer of the backend
    is returned. *)
Theorem getPidsFromSet_NaN set start stop reverse w :
  (isNaN start = true \/ isNaN stop = true ->
   getPidsFromSet set start stop reverse w = (Ok (jarr []), w))
  /\ (isNaN start = false -> isNaN stop = false ->
      getPidsFromSet set start stop reverse w
      = (Ok (jarr (range (truthy reverse) (zset w set) start stop)),
         logged (if truthy reverse then GetSortedSetRevRange set start stop
                 else GetSortedSetRange set start stop) w)).
Proof.
  unfold getPidsFromSet. split.
  - intros Hnan.
    assert (isNaN start || isNaN stop = true) as ->; [| reflexivity].
    destruct Hnan as [-> | ->]; [reflexivity | apply orb_true_r].
  - intros -> ->. cbn [orb]. by destruct (truthy reverse).
Qed.

(** C9.  In a run of [getPostsByPids] in which the hook was called and
    answered with a malformed payload (a falsy one, or one whose [posts] is
    not an array), the result is the empty list and not an error; and every
    list that [getPostsByPids] returns holds truthy entries only, so
    neither null nor undefined. *)
Theorem getPostsByPids_result pids uid w :
  let run := getPostsByPids pids uid w in
  (forall payload data,
      FireHook "filter:post.getPosts" payload ∈ new_calls w (snd run) ->
      fireHook "filter:post.getPosts" payload = Ok data ->
      malformed data ->
      fst run = Ok (jarr []))
  /\ (forall posts,
        fst run = Ok posts ->
        exists items, posts = jarr items /\ Forall (fun x => truthy x = true) items).
Proof.
  cbv zeta. unfold getPostsByPids.
  destruct (nonempty_array pids) as [l |].
  2:{ split.
      - intros payload data Hin. unfold ret, new_calls in Hin. cbn [snd] in Hin.
        rewrite drop_all in Hin. by apply not_elem_of_nil in Hin.
      - intros posts [= <-]. exists []. by split. }
  unfold bind, getObjects, call_blocks_filter, call_fireHook, ret. cbn [fst snd].
  set (keys := List.map (concat "post:") l).
  set (w0 := logged (GetObjects keys) w).
  set (objs := List.map _ keys).
  destruct (async_map_decorate_calls objs w0) as (cs & Hcs & Hall).
  assert (Hw0 : calls w0 = (calls w ++ [GetObjects keys])%list) by reflexivity.
  destruct (async_map decorate_and_parse objs w0) as [[posts' | e | t] w1];
    cbn [snd] in Hcs; cbn [fst snd].
  2,3: split; [| intros ? [=]];
       intros payload data Hin; exfalso;
       rewrite (new_calls_app w w1 ([GetObjects keys] ++ cs)) in Hin
         by (rewrite Hcs, Hw0, <- app_assoc; reflexivity);
       apply elem_of_app in Hin as [Hin | Hin];
       [ apply list_elem_of_singleton in Hin; discriminate
       | exact (FireHook_not_ParsePost _ _ _ Hall Hin) ].
  destruct (blocks_filter uid (jarr posts')) as [filtered | e | t]; cbn [fst snd].
  2,3: split; [| intros ? [=]];
       intros payload data Hin; exfalso;
       rewrite (new_calls_app w _
                  ([GetObjects keys] ++ cs ++ [BlocksFilter uid (jarr posts')])) in Hin
         by (rewrite calls_logged, Hcs, Hw0, <- !app_assoc; reflexivity);
       apply elem_of_app in Hin as [Hin | Hin];
       [ apply list_elem_of_singleton in Hin; discriminate |];
       apply elem_of_app in Hin as [Hin | Hin];
       [ exact (FireHook_not_ParsePost _ _ _ Hall Hin)
       | apply list_elem_of_singleton in Hin; discriminate ].
  set (payload0 := JObj _).
  assert (Hlog : forall payload,
    FireHook "filter:post.getPosts" payload
      ∈ new_calls w (logged (FireHook "filter:post.getPosts" payload0)
                       (logged (BlocksFilter uid (jarr posts')) w1)) ->
    payload = payload0).
  { intros payload Hin.
    rewrite (new_calls_app w _
               ([GetObjects keys] ++ cs ++ [BlocksFilter uid (jarr posts')]
                ++ [FireHook "filter:post.getPosts" payload0])) in Hin
      by (rewrite !calls_logged, Hcs, Hw0, <- !app_assoc; reflexivity).
    apply elem_of_app in Hin as [Hin | Hin];
      [ apply list_elem_of_singleton in Hin; discriminate |].
    apply elem_of_app in Hin as [Hin | Hin];
      [ destruct (FireHook_not_ParsePost _ _ _ Hall Hin) |].
    apply elem_of_app in Hin as [Hin | Hin];
      [ apply list_elem_of_singleton in Hin; discriminate |].
    apply list_elem_of_singleton in Hin. by injection Hin. }
  destruct (fireHook "filter:post.getPosts" payload0) as [data0 | e | t] eqn:Hhook;
    cbn [fst snd].
  2,3: split; [| intros ? [=]];
       intros payload data Hin Hres; apply Hlog in Hin; subst payload; congruence.
  split.
  - intros payload data Hin Hres Hbad. apply Hlog in Hin. subst payload.
    rewrite Hhook in Hres. injection Hres as ->.
    by rewrite filter_hook_result_malformed.
  - intros posts [= <-]. apply filter_hook_result_truthy.
Qed.

End Pipeline.

Lemma decorate_counters_witness :
  parseInt (prop (JObj (<["upvotes" := JStr "4"]> ∅)) "downvotes") = NNaN
  /\ exists o',
       decorate (C := sample) (JObj (<["upvotes" := JStr "4"]> ∅)) = Ok (JObj o')
       /\ prop (JObj o') "upvotes" = jint 4
       /\ prop (JObj o') "downvotes" = jint 0
       /\ prop (JObj o') "votes" = jint 4.
Proof.
  assert (Hmissing : parseInt (prop (JObj (<["upvotes" := JStr "4"]> ∅)) "downvotes") = NNaN)
    by (vm_compute; reflexivity).
  destruct (decorate_counters (C := sample) (<["upvotes" := JStr "4"]> ∅))
    as (o' & Hrun & Hup & Hdown & Hvotes & _ & Hzero).
  split; [exact Hmissing |].
  exists o'. rewrite (Hzero Hmissing) in Hdown.
  exact (conj Hrun (conj Hup (conj Hdown Hvotes))).
Defined.

(** C7 as stated fails: a stored counter "-3" is coerced to -3, which is
    negative. *)
Lemma negative_counter_survives :
  exists o',
    decorate (C := sample) (JObj (<["upvotes" := JStr "-3"]> ∅)) = Ok (JObj o')
    /\ prop (JObj o') "upvotes" = jint (-3)
    /\ prop (JObj o') "votes" = jint (-3)
    /\ ~ (0 <= -3).
Proof.
  eexists. split; [reflexivity |].
  split; [vm_compute; reflexivity |].
  split; [vm_compute; reflexivity | lia].
Qed.

Lemma getPidsFromSet_NaN_witness :
  isNaN (JStr "abc") = true
  /\ getPidsFromSet (C := sample) "tid:1:posts:votes" (jint 0) (JStr "abc") (JBool false) forum
     = (Ok (jarr []), forum)
  /\ isNaN (JStr "2.5") = false
  /\ isNaN (jint 5) = false
  /\ integer_index (JStr "2.5") = false
  /\ getPidsFromSet (C := sample) "tid:1:posts:votes" (JStr "2.5") (jint 5) (JBool true) forum
     = (Ok (jarr (range (Collaborators := sample) true (zset forum "tid:1:posts:votes")
                    (JStr "2.5") (jint 5))),
        logged (GetSortedSetRevRange "tid:1:posts:votes" (JStr "2.5") (jint 5)) forum).
Proof.
  assert (Hnan : isNaN (JStr "abc") = true) by (vm_compute; reflexivity).
  assert (Hstart : isNaN (JStr "2.5") = false) by (vm_compute; reflexivity).
  assert (Hstop : isNaN (jint 5) = false) by (vm_compute; reflexivity).
  assert (Hfrac : integer_index (JStr "2.5") = false) by (vm_compute; reflexivity).
  exact (conj Hnan
          (conj (proj1 (getPidsFromSet_NaN (C := sample) "tid:1:posts:votes" (jint 0)
                          (JStr "abc") (JBool false) forum) (or_intror Hnan))
          (conj Hstart (conj Hstop (conj Hfrac
             (proj2 (getPidsFromSet_NaN (C := sample) "tid:1:posts:votes" (JStr "2.5")
                       (jint 5) (JBool true) forum) Hstart Hstop)))))).
Defined.

(** C8 as stated fails: "1.5" is not a valid integer index, yet
    [isNaN("1.5")] is false and the range operation of the backend is
    called with it. *)
Lemma fraction_reaches_backend :
  integer_index (JStr "1.5") = false
  /\ new_calls forum
       (snd (getPidsFromSet (C := sample) "tid:1:posts:votes" (JStr "1.5") (jint 5)
               (JBool false) forum))
     = [GetSortedSetRange "tid:1:posts:votes" (JStr "1.5") (jint 5)]
  /\ fst (getPidsFromSet (C := sample) "tid:1:posts:votes" (JStr "1.5") (jint 5)
            (JBool false) forum)
     <> Ok (jarr []).
Proof.
  split; [reflexivity |]. split; [reflexivity |].
  intros Hempty. vm_compute in Hempty. discriminate Hempty.
Qed.

Lemma getPostsByPids_result_witness :
  FireHook "filter:post.getPosts" hook_payload
    ∈ new_calls forum
        (snd (getPostsByPids (C := sample_null_hook) (jarr [jint 1]) (jint 7) forum))
  /\ malformed JNull
  /\ fst (getPostsByPids (C := sample_null_hook) (jarr [jint 1]) (jint 7) forum)
     = Ok (jarr []).
Proof.
  assert (Hcalled :
    FireHook "filter:post.getPosts" hook_payload
      ∈ new_calls forum
          (snd (getPostsByPids (C := sample_null_hook) (jarr [jint 1]) (jint 7) forum))).
  { vm_compute. do 3 apply list_elem_of_further. apply list_elem_of_here. }
  assert (Hbad : malformed JNull) by (left; reflexivity).
  exact (conj Hcalled (conj Hbad
          (proj1 (getPostsByPids_result (C := sample_null_hook) (jarr [jint 1]) (jint 7) forum)
             hook_payload JNull Hcalled eq_refl Hbad))).
Defined.

(** ** [modifyPostByPrivilege] *)

Ltac step :=
  unfold bind, read_field, write_field, lift, ret;
  cbn [get_prop set_prop fst snd andb orb negb].

Lemma modify_visible (o p : gmap string jsval) :
  hidden (JObj o) (JObj p) = false ->
  modifyPostByPrivilege (JObj p) (JObj o) = (Ok tt, JObj o).
Proof.
  unfold hidden, modifyPostByPrivilege. step.
  destruct (truthy (prop (JObj o) "deleted")); step; [| reflexivity].
  destruct (truthy (prop (JObj o) "selfPost")); step; [reflexivity |].
  intros Hv. apply negb_false_iff in Hv. rewrite Hv. reflexivity.
Qed.

Lemma modify_hidden (o p : gmap string jsval) :
  hidden (JObj o) (JObj p) = true ->
  modifyPostByPrivilege (JObj p) (JObj o)
  = let post := JObj (<["content" := JStr placeholder]> o) in
    let user := prop post "user" in
    if truthy user then
      match set_prop user "signature" (JStr "") with
      | Ok user' => (Ok tt, JObj (<["user" := user']> (<["content" := JStr placeholder]> o)))
      | Failed e => (Failed e, post)
      | Thrown t => (Thrown t, post)
      end
    else (Ok tt, post).
Proof.
  unfold hidden, modifyPostByPrivilege. step.
  destruct (truthy (prop (JObj o) "deleted")); step; [| discriminate].
  destruct (truthy (prop (JObj o) "selfPost")); step; [discriminate |].
  intros Hv. apply negb_true_iff in Hv. rewrite Hv. step.
  destruct (truthy (prop (JObj _) "user")); step; [| reflexivity].
  destruct (set_prop _ _ _); reflexivity.
Qed.

Lemma user_after_content (o : gmap string jsval) :
  prop (JObj (<["content" := JStr placeholder]> o)) "user" = prop (JObj o) "user".
Proof. cbn [prop]. by rewrite lookup_insert_ne. Qed.

Lemma set_signature_frame user user' g :
  set_prop user "signature" (JStr "") = Ok user' ->
  g <> "signature" -> prop user' g = prop user g.
Proof.
  destruct user; cbn [set_prop]; try discriminate; intros [= <-] Hg; cbn [prop].
  - destruct (String.eqb g "length"); [reflexivity |]. by rewrite lookup_insert_ne.
  - by rewrite lookup_insert_ne.
Qed.

(** C10.  [modifyPostByPrivilege] replaces the content of the post by the
    placeholder and blanks the signature of its user object, if it has one,
    exactly when the post is deleted and the viewer is neither its author
    nor allowed to view deleted posts; otherwise the post is unchanged.  In
    every case no property of the post other than [content] and [user]
    changes, and no property of the user other than [signature]. *)
Theorem modifyPostByPrivilege_effect (o p : gmap string jsval) :
  let post := JObj o in
  let run := modifyPostByPrivilege (JObj p) post in
  (hidden post (JObj p) = false -> run = (Ok tt, post))
  /\ (hidden post (JObj p) = true ->
      prop (snd run) "content" = JStr placeholder
      /\ (forall u, prop post "user" = JObj u ->
            fst run = Ok tt
            /\ prop (snd run) "user" = JObj (<["signature" := JStr ""]> u))
      /\ (truthy (prop post "user") = false ->
            fst run = Ok tt /\ prop (snd run) "user" = prop post "user"))
  /\ (forall f, f <> "content" -> f <> "user" -> prop (snd run) f = prop post f)
  /\ (forall g, g <> "signature" ->
        prop (prop (snd run) "user") g = prop (prop post "user") g).
Proof.
  cbv zeta.
  destruct (hidden (JObj o) (JObj p)) eqn:Hh.
  - rewrite (modify_hidden _ _ Hh). cbv zeta. rewrite user_after_content.
    split; [discriminate |]. split; [intros _ |]; [| split].
    + split; [| split].
      * destruct (truthy _); [destruct (set_prop _ _ _) |]; cbn [snd prop];
          rewrite ?(lookup_insert_ne _ "user" "content") by done;
          by rewrite lookup_insert_eq.
      * intros u Hu. rewrite Hu. cbn [truthy set_prop fst snd prop].
        split; [reflexivity |]. by rewrite lookup_insert_eq.
      * intros Hu. rewrite Hu. cbn [fst snd]. split; [reflexivity |].
        apply user_after_content.
    + intros f Hc Hu.
      destruct (truthy _); [destruct (set_prop _ _ _) |]; cbn [snd prop];
        by rewrite ?(lookup_insert_ne _ "user" f), ?(lookup_insert_ne _ "content" f) by done.
    + intros g Hg.
      destruct (truthy _); [destruct (set_prop _ _ _) as [user' | |] eqn:Hset |];
        cbn [snd]; rewrite ?user_after_content; try reflexivity.
      change (prop (JObj (<["user":=user']> (<["content":=JStr placeholder]> o))) "user")
        with (default JUndefined
                ((<["user":=user']> (<["content":=JStr placeholder]> o)) !! "user")).
      rewrite lookup_insert_eq. cbn [default from_option].
      exact (set_signature_frame _ _ _ Hset Hg).
  - rewrite (modify_visible _ _ Hh). cbn [fst snd].
    split; [reflexivity |]. split; [discriminate |]. by split.
Qed.

Lemma modifyPostByPrivilege_effect_witness :
  hidden (JObj deleted_post) (JObj ∅) = true
  /\ hidden (JObj deleted_post) (JObj (<["posts:view_deleted" := JBool true]> ∅)) = false
  /\ prop (snd (modifyPostByPrivilege (JObj ∅) (JObj deleted_post))) "content"
     = JStr "[[topic:post_is_deleted]]"
  /\ prop (prop (snd (modifyPostByPrivilege (JObj ∅) (JObj deleted_post))) "user") "signature"
     = JStr ""
  /\ prop (prop (snd (modifyPostByPrivilege (JObj ∅) (JObj deleted_post))) "user") "username"
     = JStr "ann"
  /\ modifyPostByPrivilege (JObj (<["posts:view_deleted" := JBool true]> ∅)) (JObj deleted_post)
     = (Ok tt, JObj deleted_post).
Proof.
  assert (Hhidden : hidden (JObj deleted_post) (JObj ∅) = true)
    by (vm_compute; reflexivity).
  assert (Hvisible :
    hidden (JObj deleted_post) (JObj (<["posts:view_deleted" := JBool true]> ∅)) = false)
    by (vm_compute; reflexivity).
  destruct (modifyPostByPrivilege_effect deleted_post ∅) as (_ & Hhide & _ & Huser).
  destruct (Hhide Hhidden) as (Hcontent & Hsignature & _).
  destruct (Hsignature _ eq_refl) as (_ & Hblank).
  pose proof (Huser "username" ltac:(discriminate)) as Hname.
  destruct (modifyPostByPrivilege_effect deleted_post
              (<["posts:view_deleted" := JBool true]> ∅)) as (Hkeep & _).
  refine (conj Hhidden (conj Hvisible (conj Hcontent (conj _ (conj Hname (Hkeep Hvisible)))))).
  rewrite Hblank. vm_compute. reflexivity.
Defined.

(** * Further properties of [src/posts.js] *)

(** ** [updatePostVoteCount]: what a run leaves alone *)

Lemma lookup_zadd_other key m sc w key' member :
  m <> member -> zset (zadd key m sc w) key' !! member = zset w key' !! member.
Proof.
  intros Hne. rewrite zset_zadd. case_decide; [subst |]; [| done].
  by rewrite lookup_insert_ne.
Qed.

Lemma lookup_zrem_other key m w key' member :
  m <> member -> zset (zrem key m w) key' !! member = zset w key' !! member.
Proof.
  intros Hne. rewrite zset_zrem. case_decide; [subst |]; [| done].
  by rewrite lookup_delete_ne.
Qed.

Lemma lookup_user_index_update_other postData w key member :
  member <> ToString (prop postData "pid") ->
  zset (user_index_update postData w) key !! member = zset w key !! member.
Proof.
  intros Hne. unfold user_index_update.
  destruct (truthy _); [destruct (gt_zero _) |]; [| | done].
  - by rewrite lookup_zadd_other.
  - by rewrite lookup_zrem_other.
Qed.

(** X1.  A run of [updatePostVoteCount] changes, in every ordered set, at
    most the entries of the post's pid and of its tid: every other member
    keeps its membership and its score. *)
Theorem update_leaves_other_members postData w key member :
  accepted postData = true ->
  member <> ToString (prop postData "pid") ->
  member <> ToString (prop postData "tid") ->
  zset (snd (updatePostVoteCount postData w)) key !! member = zset w key !! member.
Proof.
  intros Hacc Hpid Htid.
  destruct (is_main_post w postData) eqn:Hmain.
  - rewrite (update_main _ _ Hacc Hmain). cbn [snd].
    rewrite zset_setObject, zset_logged, lookup_zadd_other by done.
    rewrite zset_logged, lookup_zadd_other by done.
    rewrite zset_logged, lookup_zadd_other by done.
    rewrite zset_logged, zset_setObject, !zset_logged.
    by apply lookup_user_index_update_other.
  - rewrite (update_other _ _ Hacc Hmain). cbn [snd].
    rewrite zset_setObject, zset_logged, lookup_zadd_other by done.
    rewrite zset_logged, lookup_zadd_other by done.
    rewrite !zset_logged.
    by apply lookup_user_index_update_other.
Qed.

(** X2.  A run of [updatePostVoteCount] stores the upvotes and downvotes of
    the post object in the record of the post, whether the post is a main
    post or not, keeps the other fields of that record, and leaves every
    object other than the records of the post and of its topic as it
    was. *)
Theorem update_persists_post_counters postData w :
  accepted postData = true ->
  let pid := prop postData "pid" in
  let tid := prop postData "tid" in
  let w' := snd (updatePostVoteCount postData w) in
  object w' (concat "post:" pid) !! "upvotes" = Some (prop postData "upvotes")
  /\ object w' (concat "post:" pid) !! "downvotes" = Some (prop postData "downvotes")
  /\ (forall f, f <> "upvotes" -> f <> "downvotes" ->
        object w' (concat "post:" pid) !! f = object w (concat "post:" pid) !! f)
  /\ (forall k, k <> concat "post:" pid -> k <> concat "topic:" tid ->
        object w' k = object w k).
Proof.
  intros Hacc. cbv zeta.
  assert (Hpost : object (snd (updatePostVoteCount postData w)) (concat "post:" (prop postData "pid"))
                  = counters postData ∪ object w (concat "post:" (prop postData "pid"))).
  { destruct (is_main_post w postData) eqn:Hmain.
    - rewrite (update_main _ _ Hacc Hmain). cbn [snd]. world_simpl. reflexivity.
    - rewrite (update_other _ _ Hacc Hmain). cbn [snd]. world_simpl. reflexivity. }
  rewrite Hpost. unfold counters. repeat split.
  - apply lookup_union_Some_l. by rewrite lookup_insert_eq.
  - apply lookup_union_Some_l. rewrite lookup_insert_ne by done. by rewrite lookup_insert_eq.
  - intros f Hup Hdown. apply lookup_union_r.
    rewrite !lookup_insert_ne by done. apply lookup_empty.
  - intros k Hk Ht.
    destruct (is_main_post w postData) eqn:Hmain.
    + rewrite (update_main _ _ Hacc Hmain). cbn [snd].
      rewrite object_setObject, decide_False by done.
      repeat first [rewrite object_logged | rewrite object_zadd].
      rewrite object_setObject, decide_False by done.
      rewrite !object_logged. apply object_user_index_update.
    + rewrite (update_other _ _ Hacc Hmain). cbn [snd].
      rewrite object_setObject, decide_False by done.
      repeat first [rewrite object_logged | rewrite object_zadd].
      apply object_user_index_update.
Qed.

Lemma zset_after_update_user_key postData w u :
  accepted postData = true ->
  zset (snd (updatePostVoteCount postData w)) (user_votes_key u)
  = zset (user_index_update postData w) (user_votes_key u).
Proof.
  intros Hacc.
  destruct (is_main_post w postData) eqn:Hmain.
  - rewrite (update_main _ _ Hacc Hmain). cbn [snd]. world_simpl. reflexivity.
  - rewrite (update_other _ _ Hacc Hmain). cbn [snd]. world_simpl. reflexivity.
Qed.

(** X3.  For a post without an author (a falsy [uid]),
    [updatePostVoteCount] leaves the per-user vote index of every user as it
    was. *)
Theorem anonymous_post_skips_user_index postData w :
  accepted postData = true ->
  truthy (prop postData "uid") = false ->
  forall u, zset (snd (updatePostVoteCount postData w)) (user_votes_key u)
            = zset w (user_votes_key u).
Proof.
  intros Hacc Huid u. rewrite (zset_after_update_user_key _ _ _ Hacc).
  unfold user_index_update. by rewrite Huid.
Qed.

Lemma zset_user_index_update_key postData w key :
  zset (user_index_update postData w) key
  = if truthy (prop postData "uid") then
      if decide (user_votes_key (prop postData "uid") = key) then
        if gt_zero (prop postData "votes")
        then <[ToString (prop postData "pid") := prop postData "votes"]>
               (zset w (user_votes_key (prop postData "uid")))
        else delete (ToString (prop postData "pid"))
               (zset w (user_votes_key (prop postData "uid")))
      else zset w key
    else zset w key.
Proof.
  unfold user_index_update.
  destruct (truthy _); [| reflexivity].
  destruct (gt_zero _); [rewrite zset_zadd | rewrite zset_zrem];
    case_decide; reflexivity.
Qed.

(** Every ordered set after a run, in terms of the sets before it. *)
Lemma zset_after_update postData w key :
  accepted postData = true ->
  let pid := ToString (prop postData "pid") in
  let tid := ToString (prop postData "tid") in
  let votes := prop postData "votes" in
  let ckey := category_votes_key (topic_field w (prop postData "tid") "cid") in
  let tkey := topic_posts_votes_key (prop postData "tid") in
  zset (snd (updatePostVoteCount postData w)) key
  = if decide (posts_votes_key = key) then <[pid := votes]> (zset w posts_votes_key)
    else if is_main_post w postData then
      if decide (ckey = key) then <[tid := votes]> (zset w ckey)
      else if decide (topics_votes_key = key) then <[tid := votes]> (zset w topics_votes_key)
      else zset (user_index_update postData w) key
    else
      if decide (tkey = key) then <[pid := votes]> (zset w tkey)
      else zset (user_index_update postData w) key.
Proof.
  intros Hacc. cbv zeta.
  destruct (is_main_post w postData) eqn:Hmain.
  - rewrite (update_main _ _ Hacc Hmain). cbn [snd].
    rewrite zset_setObject, zset_logged, zset_zadd.
    case_decide as H1.
    { world_simpl. rewrite zset_user_index_update by key_ne. reflexivity. }
    rewrite zset_logged, zset_zadd. case_decide as H2.
    { world_simpl. rewrite zset_user_index_update by key_ne. reflexivity. }
    rewrite zset_logged, zset_zadd. case_decide as H3.
    { world_simpl. rewrite zset_user_index_update by key_ne. reflexivity. }
    reflexivity.
  - rewrite (update_other _ _ Hacc Hmain). cbn [snd].
    rewrite zset_setObject, zset_logged, zset_zadd.
    case_decide as H1.
    { world_simpl. rewrite zset_user_index_update by key_ne. reflexivity. }
    rewrite zset_logged, zset_zadd. case_decide as H2.
    { world_simpl. rewrite zset_user_index_update by key_ne. reflexivity. }
    reflexivity.
Qed.

Lemma object_after_update postData w k :
  accepted postData = true ->
  object (snd (updatePostVoteCount postData w)) k
  = if decide (concat "post:" (prop postData "pid") = k)
    then counters postData ∪ object w (concat "post:" (prop postData "pid"))
    else if is_main_post w postData && bool_decide (concat "topic:" (prop postData "tid") = k)
    then counters postData ∪ object w (concat "topic:" (prop postData "tid"))
    else object w k.
Proof.
  intros Hacc.
  destruct (is_main_post w postData) eqn:Hmain.
  - rewrite (update_main _ _ Hacc Hmain). cbn [snd andb].
    rewrite object_setObject. case_decide as H1.
    { world_simpl. reflexivity. }
    repeat first [rewrite object_logged | rewrite object_zadd].
    rewrite object_setObject. case_bool_decide as H2.
    + rewrite decide_True by done. world_simpl. reflexivity.
    + rewrite decide_False by done. world_simpl. reflexivity.
  - rewrite (update_other _ _ Hacc Hmain). cbn [snd andb].
    rewrite object_setObject. case_decide as H1; world_simpl; reflexivity.
Qed.

Lemma counters_absorb postData (m : gmap string jsval) :
  counters postData ∪ (counters postData ∪ m) = counters postData ∪ m.
Proof. by rewrite (assoc_L (∪)), (idemp_L (∪)). Qed.

Lemma counters_other_field postData (m : gmap string jsval) f :
  f <> "upvotes" -> f <> "downvotes" -> (counters postData ∪ m) !! f = m !! f.
Proof.
  intros Hup Hdown. apply lookup_union_r. unfold counters.
  rewrite !lookup_insert_ne by done. apply lookup_empty.
Qed.

(** A run changes neither the main post nor the category of a topic. *)
Lemma topic_field_after_update postData w t f :
  accepted postData = true -> f <> "upvotes" -> f <> "downvotes" ->
  topic_field (snd (updatePostVoteCount postData w)) t f = topic_field w t f.
Proof.
  intros Hacc Hup Hdown. unfold topic_field. rewrite (object_after_update _ _ _ Hacc).
  rewrite decide_False by key_ne.
  destruct (is_main_post w postData && _) eqn:Hm; [| reflexivity].
  apply andb_true_iff in Hm as [_ Hk]. apply bool_decide_eq_true in Hk.
  rewrite <- Hk. by rewrite counters_other_field.
Qed.

Lemma is_main_post_after_update postData w :
  accepted postData = true ->
  is_main_post (snd (updatePostVoteCount postData w)) postData = is_main_post w postData.
Proof.
  intros Hacc. unfold is_main_post. by rewrite topic_field_after_update.
Qed.

(** X4.  [updatePostVoteCount] is idempotent on the stored data: after a
    second run with the same post object every ordered set and every object
    reads as after the first. *)
Theorem update_twice_is_update_once postData w :
  accepted postData = true ->
  let w1 := snd (updatePostVoteCount postData w) in
  let w2 := snd (updatePostVoteCount postData w1) in
  (forall key, zset w2 key = zset w1 key) /\ (forall k, object w2 k = object w1 k).
Proof.
  intros Hacc. cbv zeta. split.
  - intros key.
    rewrite (zset_after_update postData (snd (updatePostVoteCount postData w)) key Hacc).
    cbv zeta.
    rewrite (is_main_post_after_update _ _ Hacc).
    rewrite (topic_field_after_update _ _ _ "cid" Hacc) by done.
    rewrite zset_user_index_update_key.
    rewrite !(zset_after_update postData w _ Hacc). cbv zeta.
    rewrite zset_user_index_update_key.
    rewrite ?zset_user_index_update_key. decide_keys.
    destruct (is_main_post w postData), (truthy (prop postData "uid")),
      (gt_zero (prop postData "votes"));
      repeat (case_decide; [subst key; decide_keys |]);
      rewrite ?insert_insert_eq, ?delete_delete_eq; reflexivity.
  - intros k.
    rewrite (object_after_update postData (snd (updatePostVoteCount postData w)) k Hacc).
    rewrite (is_main_post_after_update _ _ Hacc).
    rewrite !(object_after_update postData w _ Hacc).
    case_decide as H1.
    + rewrite decide_True by done. apply counters_absorb.
    + destruct (is_main_post w postData); cbn [andb]; [| reflexivity].
      case_bool_decide as H2; [| reflexivity].
      rewrite decide_False by key_ne.
      rewrite bool_decide_eq_true_2 by done. apply counters_absorb.
Qed.

Lemma number_strict_eq_NaN_r n : number_strict_eq n NNaN = false.
Proof. by destruct n. Qed.

(** X5.  A post whose topic record is not stored, or whose pid does not
    start with an integer, is never treated as a main post:
    [updatePostVoteCount] puts it into the per-topic vote index, leaves the
    global topic-vote index alone and writes no topic record. *)
Theorem unknown_topic_or_pid_is_a_reply postData w :
  accepted postData = true ->
  objects w !! concat "topic:" (prop postData "tid") = None
    \/ parseInt (prop postData "pid") = NNaN ->
  let pid := prop postData "pid" in
  let tid := prop postData "tid" in
  let w' := snd (updatePostVoteCount postData w) in
  score w' (topic_posts_votes_key tid) pid = Some (prop postData "votes")
  /\ zset w' topics_votes_key = zset w topics_votes_key
  /\ object w' (concat "topic:" tid) = object w (concat "topic:" tid).
Proof.
  intros Hacc Hunknown. cbv zeta.
  assert (Hmain : is_main_post w postData = false).
  { unfold is_main_post. destruct Hunknown as [Hnone | ->].
    - unfold topic_field, object. rewrite Hnone. reflexivity.
    - apply number_strict_eq_NaN_r. }
  unfold score. rewrite !(zset_after_update _ _ _ Hacc). cbv zeta.
  rewrite (object_after_update _ _ _ Hacc), Hmain. cbn [andb].
  decide_keys. rewrite lookup_insert_eq.
  rewrite zset_user_index_update by key_ne. done.
Qed.

Section RankAfterUpdate.
Context {C : Collaborators}.

Lemma getPidIndex_run pid tid sortMode w :
  let key := if is_string sortMode "most_votes"
             then topic_posts_votes_key tid else topic_posts_key tid in
  getPidIndex pid tid sortMode w
  = (Ok (jint (position w key pid)), logged (SortedSetRank key pid) w).
Proof.
  cbv zeta. unfold getPidIndex, bind, sortedSetRank.
  pose proof (position_of_rank_value w
    (if is_string sortMode "most_votes"
     then topic_posts_votes_key tid else topic_posts_key tid) pid) as Hpos.
  unfold position_of_rank in Hpos.
  destruct (isNumber _); cbn [negb]; unfold ret; by rewrite Hpos.
Qed.

Lemma position_same_set w w' key value :
  zset w' key = zset w key -> position w' key value = position w key value.
Proof. unfold position. by intros ->. Qed.

(** X6.  After [updatePostVoteCount], [getPidIndex] under "most_votes"
    places a post that is not a main post at a position of at least 1; for
    a main post it answers what it answered before the run, since the run
    does not write to the index that is asked. *)
Theorem update_then_getPidIndex postData w :
  accepted postData = true ->
  let pid := prop postData "pid" in
  let tid := prop postData "tid" in
  let w' := snd (updatePostVoteCount postData w) in
  if is_main_post w postData
  then fst (getPidIndex pid tid (JStr "most_votes") w')
       = fst (getPidIndex pid tid (JStr "most_votes") w)
  else exists p, fst (getPidIndex pid tid (JStr "most_votes") w') = Ok (jint p) /\ 1 <= p.
Proof.
  intros Hacc. cbv zeta. rewrite !getPidIndex_run. cbn [fst is_string].
  change (String.eqb "most_votes" "most_votes") with true. cbv iota.
  destruct (is_main_post w postData) eqn:Hmain.
  - f_equal. f_equal. apply position_same_set.
    rewrite (zset_after_update _ _ _ Hacc). cbv zeta. rewrite Hmain.
    decide_keys. apply zset_user_index_update. key_ne.
  - eexists. split; [reflexivity |]. apply position_member.
    unfold score. rewrite (zset_after_update _ _ _ Hacc). cbv zeta. rewrite Hmain.
    decide_keys. rewrite lookup_insert_eq. eauto.
Qed.

End RankAfterUpdate.

(** X7.  [updatePostVoteCount] never changes what [Posts.exists] answers,
    for any pid: it does not write to the set "posts:pid". *)
Theorem update_keeps_existence postData w pid :
  fst (exists_ pid (snd (updatePostVoteCount postData w))) = fst (exists_ pid w).
Proof.
  destruct (accepted postData) eqn:Hacc.
  2:{ by rewrite rejected_is_noop. }
  unfold exists_, isSortedSetMember, score. cbn [fst].
  rewrite (zset_after_update _ _ _ Hacc). cbv zeta.
  assert (Hu : zset (user_index_update postData w) "posts:pid" = zset w "posts:pid")
    by (apply zset_user_index_update; key_ne).
  destruct (is_main_post w postData); decide_keys; by rewrite Hu.
Qed.



Lemma get_prop_not_nullish v f : nullish v = false -> get_prop v f = Ok (prop v f).
Proof. by destruct v. Qed.

Lemma get_prop_nullish v f : nullish v = true -> get_prop v f = Thrown "TypeError".
Proof. by destruct v. Qed.


Section Indices.
Context {C : Collaborators}.


Lemma mapM_throws {A : Type} (f : jsval -> M world A) (l : list jsval) (w : world) :
  (forall p s, nullish p = true -> f p s = (Thrown "TypeError", s)) ->
  (forall p s, nullish p = false -> exists a, f p s = (Ok a, s)) ->
  Exists (fun p => nullish p = true) l ->
  mapM f l w = (Thrown "TypeError", w).
Proof.
  intros Hbad Hgood. induction l as [| p l IH]; intros Hex.
  - by apply Exists_nil in Hex.
  - cbn [mapM]. unfold bind at 1.
    destruct (nullish p) eqn:Hp.
    + by rewrite Hbad.
    + destruct (Hgood p w Hp) as [a ->].
      apply Exists_cons in Hex as [Hex | Hex]; [congruence |].
      unfold bind. by rewrite (IH Hex).
Qed.

(** X9.  When the list of posts holds a null or undefined entry,
    [getPostIndices] throws a TypeError after reading the settings and
    before any rank call. *)
Theorem getPostIndices_null_entry posts props uid settings w :
  getSettings uid = Ok settings ->
  nullish settings = false ->
  Exists (fun p => nullish p = true) posts ->
  getPostIndices (JArr posts props) uid w
  = (Thrown "TypeError", logged (GetSettings uid) w).
Proof.
  intros Hsettings Hobj Hex.
  destruct posts as [| post rest]; [by apply Exists_nil in Hex |].
  unfold getPostIndices. cbn [nonempty_array].
  unfold bind at 1. unfold call_getSettings. rewrite Hsettings.
  unfold bind at 1. unfold lift at 1. rewrite (get_prop_not_nullish _ _ Hobj).
  unfold bind at 1. rewrite mapM_throws; [reflexivity | | | exact Hex].
  - intros p s Hp. unfold bind, lift. by rewrite (get_prop_nullish _ _ Hp).
  - intros p s Hp. unfold bind, lift, ret. rewrite (get_prop_not_nullish _ _ Hp). eauto.
Qed.

End Indices.

Section Queries.
Context {C : Collaborators}.

Lemma decorate_object (o : gmap string jsval) :
  exists o', decorate (JObj o) = Ok (JObj o').
Proof. unfold decorate. cbn [set_prop obind]. eauto. Qed.

Lemma async_map_all_ok {A B : Type} (f : A -> M world B) (g : A -> B) (l : list A) w :
  Forall (fun a => forall s, exists s', f a s = (Ok (g a), s')) l ->
  exists w', async_map f l w = (Ok (List.map g l), w').
Proof.
  intros Hf. revert w. induction Hf as [| a l Ha _ IH]; intros w; [by eexists |].
  cbn [async_map List.map]. unfold both.
  destruct (Ha w) as [w1 ->]. destruct (IH w1) as [w2 ->]. by eexists.
Qed.

Lemma decorated_value_stored w pid :
  match decorated w pid with
  | Some post => decorated_value (stored w (concat "post:" pid)) = post
                 /\ truthy post = true
  | None => truthy (decorated_value (stored w (concat "post:" pid))) = false
  end.
Proof.
  unfold decorated, stored. destruct (objects w !! concat "post:" pid) as [o |].
  - unfold decorated_value. destruct (decorate_object o) as [o' ->]. by split.
  - reflexivity.
Qed.

Lemma filter_decorated w pids :
  List.filter truthy
    (List.map decorated_value (List.map (stored w) (List.map (concat "post:") pids)))
  = omap (decorated w) pids.
Proof.
  induction pids as [| pid pids IH]; [reflexivity |].
  cbn [List.map List.filter omap list_omap].
  pose proof (decorated_value_stored w pid) as Hpid.
  destruct (decorated w pid) as [post |].
  - destruct Hpid as [-> ->]. f_equal. exact IH.
  - rewrite Hpid. exact IH.
Qed.

(** X11.  With a parser, a block filter and a hook that pass their input
    on, [getPostsByPids] returns the decorated records of the pids that are
    stored, in the order of the pids; a pid without a record leaves no
    entry. *)
Theorem getPostsByPids_passes_records pid rest props uid w :
  (forall post, parsePost post = Ok post) ->
  (forall posts, blocks_filter uid posts = Ok posts) ->
  (forall payload, fireHook "filter:post.getPosts" payload = Ok payload) ->
  fst (getPostsByPids (JArr (pid :: rest) props) uid w)
  = Ok (jarr (omap (decorated w) (pid :: rest))).
Proof.
  intros Hparse Hfilter Hhook.
  unfold getPostsByPids. cbn [nonempty_array].
  unfold bind at 1. unfold getObjects.
  change (List.map _ (List.map (concat "post:") (pid :: rest)))
    with (List.map (stored w) (List.map (concat "post:") (pid :: rest))).
  set (objs := List.map (stored w) _).
  unfold bind at 1.
  destruct (async_map_all_ok decorate_and_parse decorated_value objs
              (logged (GetObjects (List.map (concat "post:") (pid :: rest))) w))
    as [w1 ->].
  { subst objs. apply List.Forall_map. apply Forall_forall. intros k _ s.
    unfold stored. destruct (objects w !! k) as [o |].
    - unfold decorate_and_parse, decorated_value. cbn [truthy negb].
      unfold bind, lift, call_parsePost.
      destruct (decorate_object o) as [o' ->]. rewrite Hparse. by eexists.
    - by eexists. }
  unfold bind, call_blocks_filter, call_fireHook, ret. rewrite Hfilter, Hhook.
  cbn [fst snd filter_hook_result truthy negb prop].
  rewrite lookup_insert_eq. cbn [default from_option jarr].
  f_equal. f_equal. apply filter_decorated.
Qed.

End Queries.

Section Decoration.
Context {C : Collaborators}.

(** [decorate] on an object, written out. *)
Lemma decorate_run (o : gmap string jsval) :
  decorate (JObj o)
  = Ok (JObj
      (<["editedISO" :=
           if negb (number_strict_eq (parseInt (prop (JObj o) "edited")) (NInt 0))
           then toISOString (prop (JObj o) "edited") else JStr ""]>
      (<["timestampISO" := toISOString (prop (JObj o) "timestamp")]>
      (<["votes" := jint (coerced (prop (JObj o) "upvotes")
                          - coerced (prop (JObj o) "downvotes"))]>
      (<["downvotes" := jint (coerced (prop (JObj o) "downvotes"))]>
      (<["upvotes" := jint (coerced (prop (JObj o) "upvotes"))]> o)))))).
Proof.
  unfold decorate. cbn [set_prop obind prop].
  rewrite !parseInt_or_0_coerced. cbn [number_sub].
  rewrite (lookup_insert_ne _ "upvotes" "downvotes") by done.
  rewrite (lookup_insert_ne _ "votes" "timestamp") by done.
  rewrite (lookup_insert_ne _ "downvotes" "timestamp") by done.
  rewrite (lookup_insert_ne _ "upvotes" "timestamp") by done.
  rewrite (lookup_insert_ne _ "timestampISO" "edited") by done.
  rewrite (lookup_insert_ne _ "votes" "edited") by done.
  rewrite (lookup_insert_ne _ "downvotes" "edited") by done.
  rewrite (lookup_insert_ne _ "upvotes" "edited") by done.
  reflexivity.
Qed.

(** X12.  On an object, the decoration step of [getPostsByPids] succeeds
    and changes no property other than [upvotes], [downvotes], [votes],
    [timestampISO] and [editedISO]; [timestampISO] is the formatted
    [timestamp]; [editedISO] is the empty string when [edited] reads as the
    integer 0 and the formatted [edited] otherwise.  So [editedISO] is empty
    exactly when [edited] reads as 0 or the formatter itself answers the
    empty string, and a record without [edited] gets the formatted value of
    undefined. *)
Theorem decorate_keeps_other_fields (o : gmap string jsval) :
  exists o',
    decorate (JObj o) = Ok (JObj o')
    /\ (forall f, f <> "upvotes" -> f <> "downvotes" -> f <> "votes" ->
                  f <> "timestampISO" -> f <> "editedISO" -> o' !! f = o !! f)
    /\ prop (JObj o') "timestampISO" = toISOString (prop (JObj o) "timestamp")
    /\ (parseInt (prop (JObj o) "edited") = NInt 0 -> prop (JObj o') "editedISO" = JStr "")
    /\ (parseInt (prop (JObj o) "edited") <> NInt 0 ->
        prop (JObj o') "editedISO" = toISOString (prop (JObj o) "edited"))
    /\ (prop (JObj o') "editedISO" = JStr ""
        <-> parseInt (prop (JObj o) "edited") = NInt 0
            \/ toISOString (prop (JObj o) "edited") = JStr "")
    /\ (o !! "edited" = None ->
        prop (JObj o') "editedISO" = toISOString JUndefined).
Proof.
  assert (Hzero : parseInt (prop (JObj o) "edited") = NInt 0 ->
                  negb (number_strict_eq (parseInt (prop (JObj o) "edited")) (NInt 0))
                  = false) by (by intros ->).
  assert (Hother : parseInt (prop (JObj o) "edited") <> NInt 0 ->
                   negb (number_strict_eq (parseInt (prop (JObj o) "edited")) (NInt 0))
                   = true).
  { intros Hz. destruct (parseInt _) as [z | | b]; try reflexivity.
    cbn [number_strict_eq]. destruct (z =? 0) eqn:Hz0; [| reflexivity].
    apply Z.eqb_eq in Hz0. congruence. }
  eexists. split; [apply decorate_run |].
  split; [| split; [| split; [| split; [| split]]]].
  - intros f H1 H2 H3 H4 H5. by rewrite !lookup_insert_ne.
  - cbn [prop]. rewrite lookup_insert_ne by done. by rewrite lookup_insert_eq.
  - intros Hz. cbn [prop] in *. rewrite lookup_insert_eq. by rewrite (Hzero Hz).
  - intros Hz. cbn [prop] in *. rewrite lookup_insert_eq. by rewrite (Hother Hz).
  - cbn [prop] in *. rewrite lookup_insert_eq. cbn [default from_option].
    assert (parseInt (default JUndefined (o !! "edited")) = NInt 0
            \/ parseInt (default JUndefined (o !! "edited")) <> NInt 0) as [Hz | Hz].
    { destruct (parseInt _) as [z | | b]; try (right; discriminate).
      destruct (decide (z = 0)) as [-> | Hz]; [by left | right; congruence]. }
    + rewrite (Hzero Hz). split; [by left | done].
    + rewrite (Hother Hz). split; [by right | by intros [Hz' | Hiso]].
  - intros Hnone. cbn [prop] in *. rewrite lookup_insert_eq, Hnone.
    cbn [default from_option]. reflexivity.
Qed.

Lemma coerced_jint z : coerced (jint z) = z.
Proof. unfold coerced. by rewrite parseInt_jint. Qed.

Lemma decorate_counter_fields (o o' : gmap string jsval) :
  decorate (JObj o) = Ok (JObj o') ->
  prop (JObj o') "upvotes" = jint (coerced (prop (JObj o) "upvotes"))
  /\ prop (JObj o') "downvotes" = jint (coerced (prop (JObj o) "downvotes"))
  /\ prop (JObj o') "votes"
     = jint (coerced (prop (JObj o) "upvotes") - coerced (prop (JObj o) "downvotes")).
Proof.
  rewrite decorate_run. intros [= <-]. cbn [prop]. repeat split.
  - do 4 (rewrite lookup_insert_ne by done). by rewrite lookup_insert_eq.
  - do 3 (rewrite lookup_insert_ne by done). by rewrite lookup_insert_eq.
  - do 2 (rewrite lookup_insert_ne by done). by rewrite lookup_insert_eq.
Qed.

(** X13.  Decorating a decorated record again leaves [upvotes],
    [downvotes] and [votes] as they are. *)
Theorem decorate_twice_keeps_counters (o o1 o2 : gmap string jsval) :
  decorate (JObj o) = Ok (JObj o1) ->
  decorate (JObj o1) = Ok (JObj o2) ->
  prop (JObj o2) "upvotes" = prop (JObj o1) "upvotes"
  /\ prop (JObj o2) "downvotes" = prop (JObj o1) "downvotes"
  /\ prop (JObj o2) "votes" = prop (JObj o1) "votes".
Proof.
  intros H1 H2.
  destruct (decorate_counter_fields _ _ H1) as (Hup & Hdown & Hvotes).
  destruct (decorate_counter_fields _ _ H2) as (Hup' & Hdown' & Hvotes').
  rewrite Hup', Hdown', Hvotes', Hup, Hdown, Hvotes, !coerced_jint. done.
Qed.

End Decoration.

(** ** modifyPostByPrivilege *)

Lemma hidden_ignores_content_and_user (o : gmap string jsval) privileges content user :
  hidden (JObj (<["user" := user]> (<["content" := content]> o))) privileges
  = hidden (JObj o) privileges
  /\ hidden (JObj (<["content" := content]> o)) privileges = hidden (JObj o) privileges.
Proof.
  unfold hidden. cbn [prop]. by rewrite !lookup_insert_ne.
Qed.

Lemma hide_again (o : gmap string jsval) (user : jsval) :
  <["user" := user]> (<["content" := JStr placeholder]>
    (<["user" := user]> (<["content" := JStr placeholder]> o)))
  = <["user" := user]> (<["content" := JStr placeholder]> o).
Proof.
  apply map_eq. intros f. rewrite !lookup_insert. repeat case_decide; congruence.
Qed.

(** X14.  [modifyPostByPrivilege] is idempotent: when a call has returned,
    a second call with the same privileges returns too and leaves the post
    as the first call left it. *)
Theorem modifyPostByPrivilege_twice (o p : gmap string jsval) :
  let run := modifyPostByPrivilege (JObj p) (JObj o) in
  fst run = Ok tt ->
  modifyPostByPrivilege (JObj p) (snd run) = (Ok tt, snd run).
Proof.
  cbv zeta.
  destruct (hidden (JObj o) (JObj p)) eqn:Hh.
  2:{ rewrite (modify_visible _ _ Hh). intros _. cbn [snd]. exact (modify_visible _ _ Hh). }
  rewrite (modify_hidden _ _ Hh). cbv zeta. rewrite user_after_content.
  destruct (truthy (prop (JObj o) "user")) eqn:Hu.
  - destruct (prop (JObj o) "user") as [| | | | | items u | u] eqn:Huser;
      cbn [set_prop fst snd]; try discriminate; intros _.
    + rewrite modify_hidden
        by (rewrite (proj1 (hidden_ignores_content_and_user _ _ _ _)); exact Hh).
      cbv zeta. cbn [prop]. rewrite (lookup_insert_ne _ "content" "user") by done.
      rewrite lookup_insert_eq. cbn [default from_option id truthy set_prop].
      rewrite insert_insert_eq. by rewrite hide_again.
    + rewrite modify_hidden
        by (rewrite (proj1 (hidden_ignores_content_and_user _ _ _ _)); exact Hh).
      cbv zeta. cbn [prop]. rewrite (lookup_insert_ne _ "content" "user") by done.
      rewrite lookup_insert_eq. cbn [default from_option id truthy set_prop].
      rewrite insert_insert_eq. by rewrite hide_again.
  - cbn [fst snd]. intros _.
    rewrite modify_hidden
      by (rewrite (proj2 (hidden_ignores_content_and_user o (JObj p) _ JNull)); exact Hh).
    cbv zeta. rewrite user_after_content.
    cbn [prop]. rewrite (lookup_insert_ne _ "content" "user") by done.
    cbn [prop] in Hu. rewrite Hu. by rewrite insert_insert_eq.
Qed.

(** X15.  [modifyPostByPrivilege] reads the privileges only for a deleted
    post of another author: a post that is not deleted, or the viewer's own
    post, is left unchanged whatever the privileges are, also undefined;
    for a deleted post of another author, null or undefined privileges make
    the call throw a TypeError before the post is touched. *)
Theorem author_needs_no_privileges (o : gmap string jsval) privileges :
  (truthy (prop (JObj o) "deleted") = false \/ truthy (prop (JObj o) "selfPost") = true ->
   modifyPostByPrivilege privileges (JObj o) = (Ok tt, JObj o))
  /\ (truthy (prop (JObj o) "deleted") = true ->
      truthy (prop (JObj o) "selfPost") = false ->
      nullish privileges = true ->
      modifyPostByPrivilege privileges (JObj o) = (Thrown "TypeError", JObj o)).
Proof.
  split.
  - intros Hvisible. unfold modifyPostByPrivilege. step.
    destruct (truthy (prop (JObj o) "deleted")); step; [| reflexivity].
    destruct Hvisible as [Hd | ->]; [discriminate | reflexivity].
  - intros Hd Hs Hnull. unfold modifyPostByPrivilege. step. rewrite Hd. step.
    rewrite Hs. step. rewrite (get_prop_nullish _ _ Hnull). reflexivity.
Qed.

Section Summaries.
Context {C : Collaborators} {R : Readers}.

(** X16.  [getPostSummariesFromSet] always makes one reverse range call,
    whatever [start] and [stop] are; an error of the privilege filter is
    the result; otherwise the result holds the summaries and
    [nextStart = stop + 1], which is the next integer for an integer [stop]
    and the string with "1" appended for a string [stop]. *)
Theorem getPostSummariesFromSet_result set uid start stop w :
  let pids := jarr (range true (zset w set) start stop) in
  let run := getPostSummariesFromSet set uid start stop w in
  snd run = logged (GetSortedSetRevRange set start stop) w
  /\ (forall e, privileges_filter "read" pids uid = Failed e -> fst run = Failed e)
  /\ (forall readable posts,
        privileges_filter "read" pids uid = Ok readable ->
        getPostSummaryByPids readable uid (JObj (<["stripTags" := JBool false]> ∅)) = Ok posts ->
        exists result,
          fst run = Ok result
          /\ prop result "posts" = posts
          /\ prop result "nextStart" = plus_one stop
          /\ (forall z, stop = jint z -> prop result "nextStart" = jint (z + 1))
          /\ (forall s, stop = JStr s -> prop result "nextStart" = JStr (s +:+ "1"))).
Proof.
  cbv zeta. unfold getPostSummariesFromSet, bind, getSortedSetRevRange, lift, ret.
  cbn [fst snd]. split; [| split].
  - destruct (privileges_filter _ _ _); [| reflexivity..].
    by destruct (getPostSummaryByPids _ _ _).
  - by intros e ->.
  - intros readable posts -> ->. eexists. split; [reflexivity |].
    cbn [prop]. rewrite lookup_insert_eq, lookup_insert_ne by done.
    rewrite lookup_insert_eq. cbn [default from_option id].
    repeat split; by intros ? ->.
Qed.

End Summaries.

Lemma digit_no_Infinity u : starts_with is_digit u = true -> drop_Infinity u = None.
Proof.
  destruct u as [| c rest]; [discriminate |]. cbn [starts_with].
  destruct c as [[] [] [] [] [] [] [] []]; try discriminate; reflexivity.
Qed.

Lemma signed_not_NaN neg nz : signed neg nz <> SNaN.
Proof. by destruct neg, nz. Qed.

Lemma string_sign_decimal c rest :
  is_ws c = false -> c <> "0"%char ->
  string_sign (String c rest) = decimal_sign (String c rest).
Proof.
  intros Hws Hzero.
  destruct c as [[] [] [] [] [] [] [] []];
    first [ discriminate Hws | congruence | reflexivity ].
Qed.

Lemma string_sign_zero rest :
  starts_with radix_letter rest = false ->
  string_sign (String "0" rest) = decimal_sign (String "0" rest).
Proof.
  destruct rest as [| c d]; [reflexivity |]. cbn [starts_with].
  destruct c as [[] [] [] [] [] [] [] []]; intros Hr;
    first [ discriminate Hr | reflexivity ].
Qed.

Lemma decimal_sign_digits u nz :
  starts_with is_digit u = true ->
  skip is_digit u false = (nz, "") ->
  strip_sign u = (false, u) ->
  decimal_sign u = signed false nz
  /\ decimal_sign (String "-" u) = signed true nz
  /\ decimal_sign (String "+" u) = signed false nz.
Proof.
  intros Hd Hskip Hsign. unfold decimal_sign.
  change (strip_sign (String "-" u)) with (true, u).
  change (strip_sign (String "+" u)) with (false, u).
  rewrite Hsign, (digit_no_Infinity _ Hd), Hd, Hskip. done.
Qed.

Lemma strip_sign_digit u :
  starts_with is_digit u = true -> strip_sign u = (false, u).
Proof.
  destruct u as [| c rest]; [discriminate |]. cbn [starts_with].
  destruct c as [[] [] [] [] [] [] [] []]; intros Hd;
    first [ discriminate Hd | reflexivity ].
Qed.

Lemma skip_stops_at_radix_letter rest nz nz' :
  skip is_digit rest nz = (nz', "") -> starts_with radix_letter rest = false.
Proof.
  destruct rest as [| c d]; [reflexivity |]. cbn [starts_with skip].
  destruct c as [[] [] [] [] [] [] [] []]; intros Hskip;
    first [ reflexivity | discriminate Hskip ].
Qed.

(** A string that is an integer in decimal notation converts to a number. *)
Lemma integer_string_not_NaN s :
  integer_index (JStr s) = true -> string_sign s <> SNaN.
Proof.
  unfold integer_index. intros Hint.
  apply andb_true_iff in Hint as [Hd Hrest]. apply String.eqb_eq in Hrest.
  destruct (skip is_digit (snd (strip_sign s)) false) as [nz r] eqn:Hskip.
  cbn [snd] in Hrest. subst r.
  destruct s as [| c rest]; [discriminate |].
  destruct c as [[] [] [] [] [] [] [] []]; try discriminate Hd.
  all: change (snd (strip_sign (String ?c rest))) with rest in Hd, Hskip
       || change (snd (strip_sign (String ?c rest))) with (String c rest) in Hd, Hskip.
  all: try (rewrite string_sign_decimal by (reflexivity || discriminate);
            first [ rewrite (proj1 (proj2 (decimal_sign_digits _ _ Hd Hskip
                                             (strip_sign_digit _ Hd))))
                  | rewrite (proj2 (proj2 (decimal_sign_digits _ _ Hd Hskip
                                             (strip_sign_digit _ Hd))))
                  | rewrite (proj1 (decimal_sign_digits _ _ Hd Hskip
                                      (strip_sign_digit _ Hd))) ];
            apply signed_not_NaN).
  rewrite string_sign_zero by (exact (skip_stops_at_radix_letter rest (false || negb (Ascii.eqb "0" "0")) nz Hskip)).
  rewrite (proj1 (decimal_sign_digits _ _ Hd Hskip (strip_sign_digit _ Hd))).
  apply signed_not_NaN.
Qed.

Lemma integer_index_not_NaN v : integer_index v = true -> isNaN v = false.
Proof.
  destruct v as [| | | [z | |] | s | |]; try discriminate; intros Hint.
  - unfold isNaN. cbn. by destruct (z =? 0), (z <? 0).
  - unfold isNaN. cbn [ToNumber_sign].
    pose proof (integer_string_not_NaN _ Hint). by destruct (string_sign s).
Qed.

Section Range.
Context {C : Collaborators}.

(** X17.  When [start] and [stop] are integers, as numbers or as strings
    in decimal notation, [getPidsFromSet] makes exactly one range call, the
    reverse one when [reverse] is truthy, and returns what the backend
    returns. *)
Theorem getPidsFromSet_integer_indices set start stop reverse w :
  integer_index start = true ->
  integer_index stop = true ->
  getPidsFromSet set start stop reverse w
  = (Ok (jarr (range (truthy reverse) (zset w set) start stop)),
     logged (if truthy reverse then GetSortedSetRevRange set start stop
             else GetSortedSetRange set start stop) w).
Proof.
  intros Hstart Hstop. unfold getPidsFromSet.
  rewrite (integer_index_not_NaN _ Hstart), (integer_index_not_NaN _ Hstop).
  cbn [orb]. by destruct (truthy reverse).
Qed.

End Range.

(** ** The further properties on the sample forum *)

Lemma update_leaves_other_members_witness :
  accepted P2 = true
  /\ "3" <> ToString (prop P2 "pid")
  /\ "3" <> ToString (prop P2 "tid")
  /\ zset (snd (updatePostVoteCount P2 forum)) "tid:1:posts:votes" !! "3"
     = zset forum "tid:1:posts:votes" !! "3".
Proof.
  assert (Hacc : accepted P2 = true) by (vm_compute; reflexivity).
  assert (Hpid : "3" <> ToString (prop P2 "pid")) by (vm_compute; congruence).
  assert (Htid : "3" <> ToString (prop P2 "tid")) by (vm_compute; congruence).
  exact (conj Hacc (conj Hpid (conj Htid
          (update_leaves_other_members P2 forum "tid:1:posts:votes" "3" Hacc Hpid Htid)))).
Defined.

Lemma update_persists_post_counters_witness :
  accepted P2 = true
  /\ object (snd (updatePostVoteCount P2 forum)) "post:2" !! "upvotes" = Some (jint 6)
  /\ object (snd (updatePostVoteCount P2 forum)) "post:1" = object forum "post:1".
Proof.
  assert (Hacc : accepted P2 = true) by (vm_compute; reflexivity).
  destruct (update_persists_post_counters P2 forum Hacc) as (Hup & _ & _ & Hothers).
  assert (H1 : "post:1" <> concat "post:" (prop P2 "pid")) by (vm_compute; congruence).
  assert (H2 : "post:1" <> concat "topic:" (prop P2 "tid")) by (vm_compute; congruence).
  exact (conj Hacc (conj Hup (Hothers "post:1" H1 H2))).
Defined.

Lemma anonymous_post_skips_user_index_witness :
  accepted anonymous_post = true
  /\ truthy (prop anonymous_post "uid") = false
  /\ zset (snd (updatePostVoteCount anonymous_post forum)) "uid:8:posts:votes"
     = zset forum "uid:8:posts:votes".
Proof.
  assert (Hacc : accepted anonymous_post = true) by (vm_compute; reflexivity).
  assert (Huid : truthy (prop anonymous_post "uid") = false) by (vm_compute; reflexivity).
  exact (conj Hacc (conj Huid
          (anonymous_post_skips_user_index anonymous_post forum Hacc Huid (jint 8)))).
Defined.

Lemma update_twice_is_update_once_witness :
  accepted P3 = true
  /\ zset (snd (updatePostVoteCount P3 (snd (updatePostVoteCount P3 forum))))
          "uid:8:posts:votes"
     = zset (snd (updatePostVoteCount P3 forum)) "uid:8:posts:votes"
  /\ object (snd (updatePostVoteCount P3 (snd (updatePostVoteCount P3 forum)))) "post:3"
     = object (snd (updatePostVoteCount P3 forum)) "post:3".
Proof.
  assert (Hacc : accepted P3 = true) by (vm_compute; reflexivity).
  destruct (update_twice_is_update_once P3 forum Hacc) as (Hsets & Hobjects).
  exact (conj Hacc (conj (Hsets "uid:8:posts:votes") (Hobjects "post:3"))).
Defined.

Lemma unknown_topic_or_pid_is_a_reply_witness :
  accepted orphan_post = true
  /\ objects forum !! concat "topic:" (prop orphan_post "tid") = None
  /\ score (snd (updatePostVoteCount orphan_post forum)) "tid:9:posts:votes" (jint 5)
     = Some (jint 1)
  /\ object (snd (updatePostVoteCount orphan_post forum)) "topic:9" = object forum "topic:9".
Proof.
  assert (Hacc : accepted orphan_post = true) by (vm_compute; reflexivity).
  assert (Hnone : objects forum !! concat "topic:" (prop orphan_post "tid") = None)
    by (vm_compute; reflexivity).
  destruct (unknown_topic_or_pid_is_a_reply orphan_post forum Hacc (or_introl Hnone))
    as (Hscore & _ & Htopic).
  exact (conj Hacc (conj Hnone (conj Hscore Htopic))).
Defined.

Lemma update_then_getPidIndex_witness :
  accepted P2 = true
  /\ is_main_post forum P2 = false
  /\ exists p,
       fst (getPidIndex (C := sample) (jint 2) (jint 1) (JStr "most_votes")
              (snd (updatePostVoteCount P2 forum))) = Ok (jint p)
       /\ 1 <= p.
Proof.
  assert (Hacc : accepted P2 = true) by (vm_compute; reflexivity).
  assert (Hmain : is_main_post forum P2 = false) by (vm_compute; reflexivity).
  pose proof (update_then_getPidIndex (C := sample) P2 forum Hacc) as Hrun.
  cbv zeta in Hrun. rewrite Hmain in Hrun.
  exact (conj Hacc (conj Hmain Hrun)).
Defined.


Lemma getPostIndices_null_entry_witness :
  Exists (fun p => nullish p = true) [P2; JNull]
  /\ getPostIndices (C := sample) (jarr [P2; JNull]) (jint 7) forum
     = (Thrown "TypeError", logged (GetSettings (jint 7)) forum).
Proof.
  assert (Hnull : Exists (fun p => nullish p = true) [P2; JNull])
    by (apply Exists_cons_tl, Exists_cons_hd; reflexivity).
  exact (conj Hnull
          (getPostIndices_null_entry (C := sample) [P2; JNull] ∅ (jint 7) _ forum
             eq_refl eq_refl Hnull)).
Defined.

Lemma getPostsByPids_passes_records_witness :
  fst (getPostsByPids (C := sample) (jarr [jint 99; jint 1]) (jint 7) forum)
  = Ok (jarr (omap (decorated (C := sample) forum) [jint 99; jint 1]))
  /\ List.length (omap (decorated (C := sample) forum) [jint 99; jint 1]) = 1%nat.
Proof.
  split.
  - exact (getPostsByPids_passes_records (C := sample) (jint 99) [jint 1] ∅ (jint 7) forum
             (fun _ => eq_refl) (fun _ => eq_refl) (fun _ => eq_refl)).
  - vm_compute. reflexivity.
Defined.

Lemma decorate_keeps_other_fields_witness :
  parseInt (prop (JObj deleted_post) "edited") <> NInt 0
  /\ toISOString (Collaborators := sample) (prop (JObj deleted_post) "edited") = JStr ""
  /\ exists o',
       decorate (C := sample) (JObj deleted_post) = Ok (JObj o')
       /\ o' !! "content" = Some (JStr "hello")
       /\ prop (JObj o') "editedISO"
          = toISOString (Collaborators := sample) (prop (JObj deleted_post) "edited")
       /\ prop (JObj o') "editedISO" = JStr "".
Proof.
  assert (Hedited : parseInt (prop (JObj deleted_post) "edited") <> NInt 0)
    by (vm_compute; discriminate).
  assert (Hformat : toISOString (Collaborators := sample)
                      (prop (JObj deleted_post) "edited") = JStr "")
    by reflexivity.
  destruct (decorate_keeps_other_fields (C := sample) deleted_post)
    as (o' & Hrun & Hframe & _ & _ & Hiso & Hempty & _).
  split; [exact Hedited |]. split; [exact Hformat |]. exists o'.
  refine (conj Hrun (conj _ (conj (Hiso Hedited) (proj2 Hempty (or_intror Hformat))))).
  rewrite (Hframe "content") by discriminate. vm_compute. reflexivity.
Defined.

Lemma decorate_twice_keeps_counters_witness :
  exists o1 o2,
    decorate (C := sample) (JObj (object forum "post:1")) = Ok (JObj o1)
    /\ decorate (C := sample) (JObj o1) = Ok (JObj o2)
    /\ prop (JObj o1) "votes" = jint 3
    /\ prop (JObj o2) "votes" = prop (JObj o1) "votes".
Proof.
  destruct (decorate_object (C := sample) (object forum "post:1")) as [o1 H1].
  destruct (decorate_object (C := sample) o1) as [o2 H2].
  exists o1, o2.
  destruct (decorate_twice_keeps_counters (C := sample) _ _ _ H1 H2) as (_ & _ & Hvotes).
  destruct (decorate_counter_fields (C := sample) _ _ H1) as (_ & _ & Hvalue).
  exact (conj H1 (conj H2 (conj Hvalue Hvotes))).
Defined.

Lemma modifyPostByPrivilege_twice_witness :
  fst (modifyPostByPrivilege (JObj ∅) (JObj deleted_post)) = Ok tt
  /\ modifyPostByPrivilege (JObj ∅) (snd (modifyPostByPrivilege (JObj ∅) (JObj deleted_post)))
     = (Ok tt, snd (modifyPostByPrivilege (JObj ∅) (JObj deleted_post))).
Proof.
  assert (Hfirst : fst (modifyPostByPrivilege (JObj ∅) (JObj deleted_post)) = Ok tt)
    by (vm_compute; reflexivity).
  exact (conj Hfirst (modifyPostByPrivilege_twice deleted_post ∅ Hfirst)).
Defined.

Lemma author_needs_no_privileges_witness :
  truthy (prop (JObj own_deleted_post) "selfPost") = true
  /\ modifyPostByPrivilege JUndefined (JObj own_deleted_post) = (Ok tt, JObj own_deleted_post)
  /\ truthy (prop (JObj deleted_post) "deleted") = true
  /\ truthy (prop (JObj deleted_post) "selfPost") = false
  /\ modifyPostByPrivilege JUndefined (JObj deleted_post)
     = (Thrown "TypeError", JObj deleted_post).
Proof.
  assert (Hself : truthy (prop (JObj own_deleted_post) "selfPost") = true)
    by (vm_compute; reflexivity).
  assert (Hdeleted : truthy (prop (JObj deleted_post) "deleted") = true)
    by (vm_compute; reflexivity).
  assert (Hother : truthy (prop (JObj deleted_post) "selfPost") = false)
    by (vm_compute; reflexivity).
  exact (conj Hself
          (conj (proj1 (author_needs_no_privileges own_deleted_post JUndefined)
                   (or_intror Hself))
          (conj Hdeleted (conj Hother
             (proj2 (author_needs_no_privileges deleted_post JUndefined)
                Hdeleted Hother eq_refl))))).
Defined.

Lemma getPostSummariesFromSet_result_witness :
  exists result,
    fst (getPostSummariesFromSet (C := sample) (R := sample_readers)
           "tid:1:posts:votes" (jint 7) (JStr "0") (JStr "9") forum) = Ok result
    /\ prop result "nextStart" = JStr "91".
Proof.
  destruct (getPostSummariesFromSet_result (C := sample) (R := sample_readers)
              "tid:1:posts:votes" (jint 7) (JStr "0") (JStr "9") forum)
    as (_ & _ & Hok).
  destruct (Hok _ _ eq_refl eq_refl) as (result & Hrun & _ & _ & _ & Hstring).
  exists result. exact (conj Hrun (Hstring "9" eq_refl)).
Defined.

Lemma getPidsFromSet_integer_indices_witness :
  integer_index (JStr "0") = true
  /\ integer_index (JStr "10") = true
  /\ getPidsFromSet (C := sample) "tid:1:posts:votes" (JStr "0") (JStr "10") (JBool true) forum
     = (Ok (jarr (range (Collaborators := sample) true
                    (zset forum "tid:1:posts:votes") (JStr "0") (JStr "10"))),
        logged (GetSortedSetRevRange "tid:1:posts:votes" (JStr "0") (JStr "10")) forum).
Proof.
  assert (Hstart : integer_index (JStr "0") = true) by (vm_compute; reflexivity).
  assert (Hstop : integer_index (JStr "10") = true) by (vm_compute; reflexivity).
  exact (conj Hstart (conj Hstop
          (getPidsFromSet_integer_indices (C := sample) "tid:1:posts:votes"
             (JStr "0") (JStr "10") (JBool true) forum Hstart Hstop))).
Defined.
